(** * SocketChatApp: the chat server's relay loop and the chat client's loops

    A shallow embedding of [src/server/ChatServer.cpp] ([HandleClient],
    [InitializeWinsock] and [main] with its accept loop) and of
    [src/client/ChatClient.cpp] ([sendMesg], [recvMesg], [InitializeWinsock]
    and [main]).

    - a [SOCKET] is an integer handle, a [std::string] a list of characters,
      the [char buffer[4096]] a list of 4096 characters;
    - the shared [vector<SOCKET> clients] is a list of handles, in push order;
    - each [recv] call consumes one [recv_outcome] from the script of its
      connection, each [getline] one line of the standard input;
    - every side effect ([send], [cout], [cerr], [closesocket], [WSACleanup])
      is appended to a trace of [event]s; the value [send] returns is given by
      a [network] oracle and recorded in the event.

    One thread is followed at a time. [HandleClient] is the handler that no
    other thread disturbs: the registry it sees is the one it was started
    with. [HandleClient_shared] is the handler beside the other threads: it
    finds the registry anew in every turn. A script holds what the [recv]
    calls return, so its reads hold at most the 4095 bytes asked for
    ([fits]); the standard input is a list of complete lines. *)

From Stdlib Require Import List ZArith Ascii Bool Lia.
From Stdlib Require String DecimalString.
Import ListNotations String.StringSyntax.
Open Scope string_scope.
Open Scope list_scope.
Open Scope Z_scope.

(** ** Handles, text, events *)

(** [SOCKET] is an unsigned pointer-sized integer; [INVALID_SOCKET] is
    [(SOCKET)(~0)], here for 64 bits. *)
Definition SOCKET := Z.
Definition SOCKET_ERROR : Z := -1.
Definition INVALID_SOCKET : SOCKET := 18446744073709551615.

Definition text := list ascii.

Definition lit (s : String.string) : text := String.list_ascii_of_string s.

Definition NUL : ascii := Ascii.zero.

Fixpoint text_eqb (a b : text) : bool :=
  match a, b with
  | [], [] => true
  | x :: a', y :: b' => Ascii.eqb x y && text_eqb a' b'
  | _, _ => false
  end.

Inductive event : Type :=
| EvSend (s : SOCKET) (payload : text) (ret : Z)
| EvCout (line : text)
| EvCerr (line : text)
| EvCloseSocket (s : SOCKET)
| EvWSACleanup.

(** What [send(s, payload, len, 0)] returns: the byte count, or
    [SOCKET_ERROR]. *)
Definition network := SOCKET -> text -> Z.

(** The payloads written to [s], in order. *)
Fixpoint sent_to (s : SOCKET) (tr : list event) : list text :=
  match tr with
  | [] => []
  | EvSend s' payload _ :: tr' =>
      if s' =? s then payload :: sent_to s tr' else sent_to s tr'
  | _ :: tr' => sent_to s tr'
  end.

(** Every write of the trace, as (destination, payload). *)
Fixpoint sends (tr : list event) : list (SOCKET * text) :=
  match tr with
  | [] => []
  | EvSend s payload _ :: tr' => (s, payload) :: sends tr'
  | _ :: tr' => sends tr'
  end.

(** ** [std::string] operations used by the server *)

(** [s.compare(pos, len, t) == 0]: the substring of [s] that starts at [pos]
    and has at most [len] characters equals [t]. *)
Definition compare_eq0 (s : text) (pos len : nat) (t : text) : bool :=
  text_eqb (firstn len (skipn pos s)) t.

(** [s.substr(pos)]; the source calls it only with [pos <= s.size()]
    (see [compare_eq0_length]), where it does not throw. *)
Definition substr (s : text) (pos : nat) : text := skipn pos s.

(** ** The receive buffer *)

Definition sizeof_buffer : Z := 4096.

Definition zero_buffer : list ascii := repeat NUL (Z.to_nat sizeof_buffer).

(** The answer of the transport to one [recv] call: [Data bs] when [bs] is
    queued on the connection, [Eof] on an orderly shutdown, [ConnReset] on an
    error. *)
Inductive recv_outcome : Type :=
| Data (bs : list ascii)
| Eof
| ConnReset.

(** [recv(s, buffer, len, 0)]: copies at most [len] queued bytes to the front
    of [buffer] and returns their number; 0 on shutdown, [SOCKET_ERROR] on
    error. What is queued beyond [len] is not kept here: a script lists
    what the calls return, piece by piece. *)
Definition recv (o : recv_outcome) (buffer : list ascii) (len : Z)
  : Z * list ascii :=
  match o with
  | Data bs =>
      let got := firstn (Z.to_nat len) bs in
      (Z.of_nat (length got), got ++ skipn (length got) buffer)
  | Eof => (0, buffer)
  | ConnReset => (SOCKET_ERROR, buffer)
  end.

(** [buffer[i] = c]: [None] when [i] is outside the array. *)
Definition store (buffer : list ascii) (i : Z) (c : ascii)
  : option (list ascii) :=
  if (0 <=? i) && (i <? Z.of_nat (length buffer))
  then Some (firstn (Z.to_nat i) buffer ++ c :: skipn (S (Z.to_nat i)) buffer)
  else None.

(** [string(buffer)] and [cout << buffer]: the characters before the first
    NUL. *)
Fixpoint c_str (buffer : list ascii) : text :=
  match buffer with
  | [] => []
  | c :: rest => if Ascii.eqb c NUL then [] else c :: c_str rest
  end.

(** ** The registry: [vector<SOCKET> clients] *)

(** [std::find(v.begin(), v.end(), x) - v.begin()]; [length v] is [end()]. *)
Fixpoint find (v : list SOCKET) (x : SOCKET) : nat :=
  match v with
  | [] => O
  | y :: v' => if y =? x then O else S (find v' x)
  end.

(** [v.erase(v.begin() + i)]. *)
Definition erase (v : list SOCKET) (i : nat) : list SOCKET :=
  firstn i v ++ skipn (S i) v.

(** Lines 82-85 of the server: erase the first occurrence, if there is one. *)
Definition remove_client (clients : list SOCKET) (clientSocket : SOCKET)
  : list SOCKET :=
  let it := find clients clientSocket in
  if Nat.eqb it (length clients) then clients else erase clients it.

(** [clients.push_back(s)]. *)
Definition push_back (clients : list SOCKET) (s : SOCKET) : list SOCKET :=
  clients ++ [s].

(** ** The server *)

Inductive status : Type :=
| Running     (* waiting for input that the script does not hold *)
| Exited      (* the loop was left by [break] *)
| Undefined.  (* a write outside the buffer *)

Definition connectPrefix : text := lit "__CONNECT__".

Section Server.

Variable net : network.

Definition send (s : SOCKET) (payload : text) : Z := net s payload.

(** The two [for (SOCKET otherClient : *clients)] loops of [HandleClient]:
    the value of [send] is dropped, the registry is not touched. *)
Fixpoint broadcast (clients : list SOCKET) (clientSocket : SOCKET)
         (payload : text) : list event :=
  match clients with
  | [] => []
  | otherClient :: rest =>
      if otherClient =? clientSocket
      then broadcast rest clientSocket payload
      else EvSend otherClient payload (send otherClient payload)
             :: broadcast rest clientSocket payload
  end.

(** Lines 56-78: what one received [message] does to [clientName] and to
    the trace. *)
Definition handle_message (clientSocket : SOCKET) (clients : list SOCKET)
           (clientName message : text) : text * list event :=
  if compare_eq0 message 0 (length connectPrefix) connectPrefix then
    let clientName := substr message (length connectPrefix) in
    let sysMsg := clientName ++ lit " connected." in
    (clientName, EvCout sysMsg :: broadcast clients clientSocket sysMsg)
  else
    (clientName,
     EvCout (lit "Message from " ++ clientName ++ lit ": " ++ message)
       :: broadcast clients clientSocket message).

(** Lines 46-79: the [while (true)] loop, one [recv_outcome] per turn. *)
Fixpoint recv_loop (clientSocket : SOCKET) (clients : list SOCKET)
         (buffer : list ascii) (clientName : text)
         (script : list recv_outcome) : list event * status :=
  match script with
  | [] => ([], Running)
  | o :: script' =>
      let '(bytesReceived, buffer) := recv o buffer (sizeof_buffer - 1) in
      if bytesReceived <=? 0 then
        ([EvCout (clientName ++ lit " disconnected.")], Exited)
      else
        match store buffer bytesReceived NUL with
        | None => ([], Undefined)
        | Some buffer =>
            let message := c_str buffer in
            let '(clientName, evs) :=
              handle_message clientSocket clients clientName message in
            let '(evs', st) :=
              recv_loop clientSocket clients buffer clientName script' in
            (evs ++ evs', st)
        end
  end.

(** [HandleClient(clientSocket, &clients)]: the trace, the registry it
    leaves, and how it ended. *)
Definition HandleClient (clientSocket : SOCKET) (clients : list SOCKET)
           (script : list recv_outcome)
  : list event * list SOCKET * status :=
  let '(evs, st) :=
    recv_loop clientSocket clients zero_buffer (lit "Unknown") script in
  match st with
  | Exited =>
      (evs ++ [EvCloseSocket clientSocket],
       remove_client clients clientSocket, Exited)
  | _ => (evs, clients, st)
  end.

End Server.

(** One turn of the accept loop of [main] (lines 138-152): a failed [accept]
    is logged and skipped, an accepted handle is stored before its thread
    starts. *)
Definition accept_client (clients : list SOCKET) (clientSocket : SOCKET)
  : list SOCKET :=
  if clientSocket =? INVALID_SOCKET then clients
  else push_back clients clientSocket.

(** ** The client *)

Definition nl : ascii := "010"%char.

(** [std::isspace] in the C locale. *)
Definition isspace (c : ascii) : bool :=
  let n := nat_of_ascii c in
  Nat.eqb n 32 || (Nat.leb 9 n && Nat.leb n 13).

(** [cin >> ws] within one line. *)
Fixpoint skip_ws (line : text) : text :=
  match line with
  | [] => []
  | c :: rest => if isspace c then skip_ws rest else line
  end.

(** The [do ... while (name.empty())] loop of [sendMesg]: [cin >> ws] eats
    blank lines and leading blanks, [getline] takes the rest of the line.
    [None] at the end of the input, where the loop never ends. *)
Fixpoint read_name (stdin : list text) : option (text * list text) :=
  match stdin with
  | [] => None
  | line :: stdin' =>
      match skip_ws line with
      | [] => read_name stdin'
      | name => Some (name, stdin')
      end
  end.

Definition empty (s : text) : bool :=
  match s with [] => true | _ => false end.

Definition prompt : text := lit "Send your message: ".

Section Client.

Variable net : network.

(** Lines 107-129 of the client: one typed line per turn. The input is a
    list of complete lines; after the last one [getline] finds nothing,
    [message] is empty and the loop spins. *)
Fixpoint send_loop (s : SOCKET) (name : text) (stdin : list text)
  : list event * status :=
  match stdin with
  | [] => ([EvCout prompt], Running)
  | message :: stdin' =>
      if empty message then
        let '(evs, st) := send_loop s name stdin' in
        (EvCout prompt :: evs, st)
      else
        let fullMsg := name ++ lit " : " ++ message in
        let byteSent := send net s fullMsg in
        if byteSent =? SOCKET_ERROR then
          ([EvCout prompt; EvSend s fullMsg byteSent;
            EvCerr (nl :: lit "Error sending message.")], Exited)
        else if text_eqb message (lit "quit")
                || text_eqb message (lit "exit") then
          ([EvCout prompt; EvSend s fullMsg byteSent;
            EvCout (nl :: lit "Stopping the application.")], Exited)
        else
          let '(evs, st) := send_loop s name stdin' in
          (EvCout prompt :: EvSend s fullMsg byteSent :: evs, st)
  end.

(** [sendMesg(s)]. *)
Definition sendMesg (s : SOCKET) (stdin : list text)
  : list event * status :=
  match read_name stdin with
  | None => ([EvCout (lit "Enter your chat name: ")], Running)
  | Some (name, stdin') =>
      let connectMsg := lit "__CONNECT__" ++ name in
      let '(evs, st) := send_loop s name stdin' in
      let evs :=
        EvCout (lit "Enter your chat name: ")
          :: EvSend s connectMsg (send net s connectMsg) :: evs in
      match st with
      | Exited => (evs ++ [EvCloseSocket s; EvWSACleanup], Exited)
      | _ => (evs, st)
      end
  end.

End Client.

(** Lines 170-185 of the client; [buffer] starts with whatever the stack
    holds. *)
Fixpoint recvMesg_loop (buffer : list ascii) (script : list recv_outcome)
  : list event * status :=
  match script with
  | [] => ([], Running)
  | o :: script' =>
      let '(recvLen, buffer) := recv o buffer (sizeof_buffer - 1) in
      if recvLen <=? 0 then
        ([EvCout (nl :: lit "Disconnected from server.")], Exited)
      else
        match store buffer recvLen NUL with
        | None => ([], Undefined)
        | Some buffer =>
            let '(evs, st) := recvMesg_loop buffer script' in
            (EvCout (nl :: c_str buffer) :: EvCout prompt :: evs, st)
        end
  end.

(** [recvMesg(s)]. *)
Definition recvMesg (s : SOCKET) (buffer : list ascii)
           (script : list recv_outcome) : list event * status :=
  let '(evs, st) := recvMesg_loop buffer script in
  match st with
  | Exited => (evs ++ [EvCloseSocket s; EvWSACleanup], Exited)
  | _ => (evs, st)
  end.

(** ** Vocabulary of the statements *)

Definition other_than (clientSocket : SOCKET) (h : SOCKET) : bool :=
  negb (h =? clientSocket).

Definition max_payload : nat := Z.to_nat (sizeof_buffer - 1).

Definition quiet : network := fun _ payload => Z.of_nat (length payload).

Definition underscore : ascii := "_"%char.

(** An outcome after which the loop goes on: a read with data. *)
Definition keeps_reading (o : recv_outcome) : bool :=
  match o with
  | Data (_ :: _) => true
  | _ => false
  end.

(** A network on which every write to handle 2 fails. *)
Definition flaky : network :=
  fun s payload => if s =? 2 then SOCKET_ERROR else Z.of_nat (length payload).

(** The client's writes as the server reads them when each write arrives
    in a read of its own, followed by the client's shutdown. *)
Definition as_script (s : SOCKET) (tr : list event) : list recv_outcome :=
  map Data (sent_to s tr) ++ [Eof].

Definition space : ascii := " "%char.

(** ** Process start-up: [main] of the server and of the client *)

Definition EXIT_SUCCESS : Z := 0.
Definition EXIT_FAILURE : Z := 1.

(** [MAKEWORD(lo, hi)]: two bytes packed into a 16-bit word. *)
Definition MAKEWORD (lo hi : Z) : Z :=
  Z.lor (Z.land lo 255) (Z.shiftl (Z.land hi 255) 8).

(** What the socket library answers while a process starts: the value of
    [WSAStartup] for a requested version, of [socket], [bind], [listen] and
    [connect], and the code [WSAGetLastError] reports for a failed call. *)
Record winsock : Type := {
  WSAStartup : Z -> Z;
  socket : SOCKET;
  bind : Z;
  listen : Z;
  connect : Z;
  WSAGetLastError : Z
}.

(** [InitializeWinsock()], the same in both programs. *)
Definition InitializeWinsock (w : winsock) : bool :=
  WSAStartup w (MAKEWORD 2 2) =? 0.

(** [cout << n] for an integer. *)
Definition show_int (n : Z) : text :=
  lit (DecimalString.NilZero.string_of_int (Z.to_int n)).

(** What [main] does: input and output, and the threads it starts. *)
Inductive action : Type :=
| Io (e : event)
| Spawn (clientSocket : SOCKET).

(** Lines 138-152 of the server: one pair per [accept] call, the handle it
    returns and the code [WSAGetLastError] would report for it. The loop has
    no exit; the function returns what was done when the list is used up. *)
Fixpoint accept_loop (clients : list SOCKET) (accepts : list (SOCKET * Z))
  : list action * list SOCKET :=
  match accepts with
  | [] => ([], clients)
  | (clientSocket, err) :: accepts' =>
      if clientSocket =? INVALID_SOCKET then
        let '(acts, clients) := accept_loop clients accepts' in
        (Io (EvCerr (lit "Accept failed. Error: " ++ show_int err)) :: acts,
         clients)
      else
        let '(acts, clients') :=
          accept_loop (push_back clients clientSocket) accepts' in
        (Io (EvCout (lit "New client connected. Socket: "
                       ++ show_int clientSocket))
           :: Spawn clientSocket :: acts,
         clients')
  end.

(** [main] of the server: the actions, the registry, and the exit status
    ([None] while the accept loop runs). *)
Definition server_main (w : winsock) (accepts : list (SOCKET * Z))
  : list action * list SOCKET * option Z :=
  let hello := Io (EvCout (lit "Starting TCP Chat Server...")) in
  if negb (InitializeWinsock w) then
    ([hello;
      Io (EvCerr (lit "Winsock initialization failed. Error: "
                    ++ show_int (WSAGetLastError w)))],
     [], Some EXIT_FAILURE)
  else
    let ready := Io (EvCout (lit "Winsock initialized successfully.")) in
    let listenSocket := socket w in
    if listenSocket =? INVALID_SOCKET then
      ([hello; ready;
        Io (EvCerr (lit "Socket creation failed. Error: "
                      ++ show_int (WSAGetLastError w)));
        Io EvWSACleanup],
       [], Some EXIT_FAILURE)
    else if bind w =? SOCKET_ERROR then
      ([hello; ready;
        Io (EvCerr (lit "Socket binding failed. Error: "
                      ++ show_int (WSAGetLastError w)));
        Io (EvCloseSocket listenSocket);
        Io EvWSACleanup],
       [], Some EXIT_FAILURE)
    else if listen w =? SOCKET_ERROR then
      ([hello; ready;
        Io (EvCerr (lit "Listen failed. Error: "
                      ++ show_int (WSAGetLastError w)));
        Io (EvCloseSocket listenSocket);
        Io EvWSACleanup],
       [], Some EXIT_FAILURE)
    else
      let '(acts, clients) := accept_loop [] accepts in
      (hello :: ready
         :: Io (EvCout (lit "Server is listening on port 12345...")) :: acts,
       clients, None).

(** [main] of the client: what it does before the threads start, the runs
    of the two threads on the connected socket, and the exit status ([None]
    while a [join] waits for a thread that has not left its loop). *)
Definition client_main (w : winsock) (net : network) (stdin : list text)
           (buffer : list ascii) (script : list recv_outcome)
  : list event
    * option ((list event * status) * (list event * status))
    * option Z :=
  if negb (InitializeWinsock w) then
    ([EvCerr (lit "Error initializing Winsock.")], None, Some 1)
  else
    let started := EvCout (lit "Client started") in
    let clientSocket := socket w in
    if clientSocket =? INVALID_SOCKET then
      ([started;
        EvCerr (lit "Socket creation failed with error: "
                  ++ show_int (WSAGetLastError w));
        EvWSACleanup],
       None, Some 1)
    else if connect w =? SOCKET_ERROR then
      ([started;
        EvCerr (lit "Unable to connect to server. Error: "
                  ++ show_int (WSAGetLastError w));
        EvCloseSocket clientSocket;
        EvWSACleanup],
       None, Some 1)
    else
      let sender := sendMesg net clientSocket stdin in
      let receiver := recvMesg clientSocket buffer script in
      ([started; EvCout (lit "Successfully connected to server")],
       Some (sender, receiver),
       match snd sender, snd receiver with
       | Exited, Exited => Some 0
       | _, _ => None
       end).

(** ** Vocabulary of the further statements *)

Definition is_stop (message : text) : bool :=
  text_eqb message (lit "quit") || text_eqb message (lit "exit").

(** The lines the client's loop passes on when no write fails: the lines
    that are not empty, up to and with the first [quit] or [exit]. *)
Fixpoint typed_lines (stdin : list text) : list text :=
  match stdin with
  | [] => []
  | message :: stdin' =>
      if empty message then typed_lines stdin'
      else if is_stop message then [message]
      else message :: typed_lines stdin'
  end.

(** Whether the input holds a [quit] or [exit] line. *)
Definition has_stop (stdin : list text) : bool := existsb is_stop stdin.

(** A payload that one read hands to the server whole and that the server
    takes for chat: not empty, without NUL, at most 4095 bytes, not
    beginning with the marker. *)
Definition plain (m : text) : Prop :=
  m <> []
  /\ ~ In NUL m
  /\ (length m <= Z.to_nat (sizeof_buffer - 1))%nat
  /\ compare_eq0 m 0 (length connectPrefix) connectPrefix = false.

(** The writes one broadcast of [m] makes. *)
Definition fanout (clients : list SOCKET) (clientSocket : SOCKET) (m : text)
  : list (SOCKET * text) :=
  map (fun h => (h, m)) (filter (other_than clientSocket) clients).

(** How often a trace closes [s], and how often it calls [WSACleanup]. *)
Definition closes (s : SOCKET) (tr : list event) : nat :=
  length (filter (fun e => match e with
                           | EvCloseSocket s' => s' =? s
                           | _ => false
                           end) tr).

Definition cleanups (tr : list event) : nat :=
  length (filter (fun e => match e with EvWSACleanup => true | _ => false end)
                 tr).

Definition io_of (acts : list action) : list event :=
  flat_map (fun a => match a with Io e => [e] | Spawn _ => [] end) acts.

Definition spawned (acts : list action) : list SOCKET :=
  flat_map (fun a => match a with Spawn s => [s] | Io _ => [] end) acts.

Definition valid_handles (accepts : list (SOCKET * Z)) : list SOCKET :=
  filter (fun s => negb (s =? INVALID_SOCKET)) (map fst accepts).

(** The reads with data that come before the first read without. *)
Fixpoint data_prefix (script : list recv_outcome) : list (list ascii) :=
  match script with
  | Data (b :: bs) :: script' => (b :: bs) :: data_prefix script'
  | _ => []
  end.

(** The events of the loops themselves: writes and console lines, nothing
    that closes a socket or shuts the library down. *)
Definition loop_event (e : event) : Prop :=
  match e with
  | EvCloseSocket _ | EvWSACleanup => False
  | _ => True
  end.

(** Every step of the server's start-up succeeds. *)
Definition server_ready (w : winsock) : bool :=
  InitializeWinsock w
  && negb (socket w =? INVALID_SOCKET)
  && negb (bind w =? SOCKET_ERROR)
  && negb (listen w =? SOCKET_ERROR).

(** Every step of the client's start-up succeeds. *)
Definition client_ready (w : winsock) : bool :=
  InitializeWinsock w
  && negb (socket w =? INVALID_SOCKET)
  && negb (connect w =? SOCKET_ERROR).

(** Three answers of the library: the port is taken, all is well, the
    server does not answer. *)
Definition bind_fails : winsock :=
  {| WSAStartup := fun _ => 0; socket := 3; bind := SOCKET_ERROR;
     listen := 0; connect := 0; WSAGetLastError := 10048 |}.

Definition all_fine : winsock :=
  {| WSAStartup := fun _ => 0; socket := 3; bind := 0;
     listen := 0; connect := 0; WSAGetLastError := 0 |}.

Definition connect_fails : winsock :=
  {| WSAStartup := fun _ => 0; socket := 3; bind := 0;
     listen := 0; connect := SOCKET_ERROR; WSAGetLastError := 10061 |}.

(** A line of white space only. *)
Definition blank (line : text) : Prop := skip_ws line = [].

(** [name + " : " + message], line 116 of the client. *)
Definition says (name message : text) : text := name ++ lit " : " ++ message.

(** A network on which every write fails. *)
Definition dead : network := fun _ _ => SOCKET_ERROR.

(** What the receiver prints for the reads with data. *)
Definition shown (reads : list (list ascii)) : list event :=
  flat_map (fun bs => [EvCout (nl :: c_str (firstn max_payload bs));
                       EvCout prompt]) reads.

(** ** The handler beside the other threads *)

(** One turn of a handler as the rest of the process lets it see the world:
    the content of the shared vector [*clients] when the turn runs its
    broadcast (for the last turn: its cleanup), and what [recv] returns.
    Between two turns [main] may have pushed handles and other handlers may
    have erased theirs. *)
Definition turn : Type := (list SOCKET * recv_outcome)%type.

(** Lines 46-79 again, with the registry read anew in every turn; the third
    component is the registry the loop found when it left. *)
Fixpoint recv_loop_shared (net : network) (clientSocket : SOCKET)
         (buffer : list ascii) (clientName : text) (turns : list turn)
  : list event * status * list SOCKET :=
  match turns with
  | [] => ([], Running, [])
  | (clients, o) :: turns' =>
      let '(bytesReceived, buffer) := recv o buffer (sizeof_buffer - 1) in
      if bytesReceived <=? 0 then
        ([EvCout (clientName ++ lit " disconnected.")], Exited, clients)
      else
        match store buffer bytesReceived NUL with
        | None => ([], Undefined, clients)
        | Some buffer =>
            let message := c_str buffer in
            let '(clientName, evs) :=
              handle_message net clientSocket clients clientName message in
            let '(evs', st, found) :=
              recv_loop_shared net clientSocket buffer clientName turns' in
            (evs ++ evs', st, found)
        end
  end.

(** [HandleClient] beside the other threads: the trace, the registry it
    writes back when it leaves ([None] while it has not touched it), and how
    it ended. *)
Definition HandleClient_shared (net : network) (clientSocket : SOCKET)
           (turns : list turn)
  : list event * option (list SOCKET) * status :=
  let '(evs, st, found) :=
    recv_loop_shared net clientSocket zero_buffer (lit "Unknown") turns in
  match st with
  | Exited =>
      (evs ++ [EvCloseSocket clientSocket],
       Some (remove_client found clientSocket), Exited)
  | _ => (evs, None, st)
  end.

(** A handler that no other thread disturbs: every turn finds [clients]. *)
Definition undisturbed (clients : list SOCKET) (script : list recv_outcome)
  : list turn :=
  map (fun o => (clients, o)) script.

(** What a [recv] call that asked for 4095 bytes can return: no more than
    that. *)
Definition fits (o : recv_outcome) : Prop :=
  match o with
  | Data bs => (length bs <= Z.to_nat (sizeof_buffer - 1))%nat
  | _ => True
  end.

(** What the handler does with chat messages that are each read whole, each
    under the registry of its turn. *)
Definition chat_turns (net : network) (clientSocket : SOCKET)
           (clientName : text) (chats : list (list SOCKET * text))
  : list event :=
  flat_map (fun cm =>
              EvCout (lit "Message from " ++ clientName ++ lit ": " ++ snd cm)
                :: broadcast net (fst cm) clientSocket (snd cm)) chats.

(** The turns in which the messages [chats] are read. *)
Definition reads_of (chats : list (list SOCKET * text)) : list turn :=
  map (fun cm => (fst cm, Data (snd cm))) chats.

(** What the receiver prints for reads that fit the buffer. *)
Definition printed (reads : list (list ascii)) : list event :=
  flat_map (fun bs => [EvCout (nl :: c_str bs); EvCout prompt]) reads.


(** ** Basic facts: text *)

(** Closes [~ In c l] for a character and a text that are both literal. *)
Ltac not_in_literal :=
  let H := fresh "H" in
  simpl; intros H; repeat (destruct H as [H|H]; [discriminate|]); exact H.

Lemma text_eqb_eq (a b : text) : text_eqb a b = true <-> a = b.
Proof.
  revert b; induction a as [|x a IH]; intros [|y b]; simpl;
    try (split; [discriminate | congruence]).
  - split; reflexivity.
  - rewrite andb_true_iff, Ascii.eqb_eq, IH.
    split; [intros [-> ->]; reflexivity | intros [= -> ->]; auto].
Qed.

Lemma text_eqb_refl (a : text) : text_eqb a a = true.
Proof. apply text_eqb_eq; reflexivity. Qed.

Lemma text_eqb_neq (a b : text) : text_eqb a b = false <-> a <> b.
Proof.
  rewrite <- text_eqb_eq. destruct (text_eqb a b); split; congruence.
Qed.

(** [compare(0, n, t) == 0] says that [t] is a prefix of the message; the
    message is then at least as long as [t], so [substr] does not throw. *)
Lemma compare_eq0_prefix (s t : text) :
  compare_eq0 s 0 (length t) t = true <-> s = t ++ substr s (length t).
Proof.
  unfold compare_eq0, substr. rewrite text_eqb_eq, skipn_0. split.
  - intros H. rewrite <- H at 1. symmetry; apply firstn_skipn.
  - intros H. rewrite H at 1. rewrite firstn_app, firstn_all, Nat.sub_diag.
    simpl. apply app_nil_r.
Qed.

Lemma compare_eq0_length (s t : text) :
  compare_eq0 s 0 (length t) t = true -> (length t <= length s)%nat.
Proof.
  intros H. apply compare_eq0_prefix in H. rewrite H, length_app. lia.
Qed.

Lemma compare_eq0_app (t rest : text) :
  compare_eq0 (t ++ rest) 0 (length t) t = true.
Proof.
  unfold compare_eq0. rewrite skipn_0, firstn_app, firstn_all, Nat.sub_diag.
  simpl. rewrite app_nil_r. apply text_eqb_refl.
Qed.

Lemma substr_app (t rest : text) : substr (t ++ rest) (length t) = rest.
Proof.
  unfold substr. rewrite skipn_app, skipn_all, Nat.sub_diag. reflexivity.
Qed.

(** ** Basic facts: traces *)

(** The writes of one broadcast: one per registry entry other than the
    sender's handle, in registry order, all with the same payload. *)
Lemma sends_broadcast net clients clientSocket payload :
  sends (broadcast net clients clientSocket payload)
  = map (fun h => (h, payload)) (filter (other_than clientSocket) clients).
Proof.
  unfold other_than.
  induction clients as [|h rest IH]; simpl; [reflexivity|].
  destruct (h =? clientSocket); simpl; rewrite IH; reflexivity.
Qed.

Lemma in_sends_broadcast net clients clientSocket payload h p :
  In (h, p) (sends (broadcast net clients clientSocket payload))
  <-> In h clients /\ h <> clientSocket /\ p = payload.
Proof.
  rewrite sends_broadcast, in_map_iff. split.
  - intros (x & [= -> ->] & Hin). apply filter_In in Hin as [Hin Hne].
    unfold other_than in Hne. apply negb_true_iff, Z.eqb_neq in Hne. auto.
  - intros (Hin & Hne & ->). exists h. split; [reflexivity|].
    apply filter_In. split; [assumption|].
    unfold other_than. apply negb_true_iff, Z.eqb_neq, Hne.
Qed.

Lemma sent_to_broadcast_self net clients clientSocket payload :
  sent_to clientSocket (broadcast net clients clientSocket payload) = [].
Proof.
  induction clients as [|h rest IH]; simpl; [reflexivity|].
  destruct (h =? clientSocket) eqn:E; simpl; [assumption|].
  rewrite E. assumption.
Qed.

Lemma sent_to_broadcast_absent net clients clientSocket payload h :
  ~ In h clients ->
  sent_to h (broadcast net clients clientSocket payload) = [].
Proof.
  induction clients as [|k rest IH]; simpl; intros Hn; [reflexivity|].
  destruct (k =? clientSocket); simpl.
  - apply IH. tauto.
  - destruct (k =? h) eqn:E.
    + apply Z.eqb_eq in E. tauto.
    + apply IH. tauto.
Qed.

(** In a registry without duplicates a broadcast writes once to each
    other handle. *)
Lemma sent_to_broadcast_once net clients clientSocket payload h :
  NoDup clients -> In h clients -> h <> clientSocket ->
  sent_to h (broadcast net clients clientSocket payload) = [payload].
Proof.
  induction clients as [|k rest IH]; simpl; intros Hnd Hin Hne; [tauto|].
  inversion Hnd as [|? ? Hk Hrest]; subst.
  destruct Hin as [->|Hin].
  - apply Z.eqb_neq in Hne. rewrite Hne. simpl. rewrite Z.eqb_refl.
    rewrite sent_to_broadcast_absent by assumption. reflexivity.
  - destruct (k =? clientSocket); simpl.
    + apply IH; assumption.
    + destruct (k =? h) eqn:E.
      * apply Z.eqb_eq in E. subst. tauto.
      * apply IH; assumption.
Qed.

Lemma in_broadcast net clients clientSocket payload h :
  In h clients -> h <> clientSocket ->
  In (EvSend h payload (net h payload))
     (broadcast net clients clientSocket payload).
Proof.
  induction clients as [|k rest IH]; simpl; intros Hin Hne; [tauto|].
  destruct Hin as [->|Hin].
  - apply Z.eqb_neq in Hne. rewrite Hne. left. reflexivity.
  - destruct (k =? clientSocket); [|right]; apply IH; assumption.
Qed.

(** ** Basic facts: the registry *)

Lemma remove_client_cons (y : SOCKET) (v : list SOCKET) (x : SOCKET) :
  remove_client (y :: v) x = if y =? x then v else y :: remove_client v x.
Proof.
  unfold remove_client, erase. simpl find. destruct (y =? x).
  - reflexivity.
  - simpl. destruct (Nat.eqb (find v x) (length v)); reflexivity.
Qed.

Lemma remove_client_absent (v : list SOCKET) (x : SOCKET) :
  ~ In x v -> remove_client v x = v.
Proof.
  induction v as [|y v IH]; intros Hn; [reflexivity|].
  rewrite remove_client_cons. destruct (y =? x) eqn:E.
  - apply Z.eqb_eq in E. subst. exfalso. apply Hn. left. reflexivity.
  - rewrite IH; [reflexivity|]. intros H. apply Hn. right. assumption.
Qed.

Lemma in_remove_client (v : list SOCKET) (x k : SOCKET) :
  In k (remove_client v x) -> In k v.
Proof.
  induction v as [|y v IH]; [tauto|].
  rewrite remove_client_cons. destruct (y =? x); simpl; tauto.
Qed.

Lemma remove_client_keeps (v : list SOCKET) (x k : SOCKET) :
  In k v -> k <> x -> In k (remove_client v x).
Proof.
  induction v as [|y v IH]; [tauto|].
  rewrite remove_client_cons. intros [->|Hin] Hne.
  - apply Z.eqb_neq in Hne. rewrite Hne. left. reflexivity.
  - destruct (y =? x); [assumption|]. right. apply IH; assumption.
Qed.

Lemma remove_client_gone (v : list SOCKET) (x : SOCKET) :
  NoDup v -> ~ In x (remove_client v x).
Proof.
  induction v as [|y v IH]; intros Hnd; [tauto|].
  inversion Hnd as [|? ? Hy Hv]; subst.
  rewrite remove_client_cons. destruct (y =? x) eqn:E.
  - apply Z.eqb_eq in E. subst. assumption.
  - apply Z.eqb_neq in E. simpl. intros [H|H]; [tauto|]. apply IH; assumption.
Qed.

Lemma remove_client_NoDup (v : list SOCKET) (x : SOCKET) :
  NoDup v -> NoDup (remove_client v x).
Proof.
  induction v as [|y v IH]; intros Hnd; [constructor|].
  inversion Hnd as [|? ? Hy Hv]; subst.
  rewrite remove_client_cons. destruct (y =? x); [assumption|].
  constructor; [|apply IH; assumption].
  intros H. apply Hy. eapply in_remove_client, H.
Qed.

Lemma remove_client_push_back (v : list SOCKET) (s : SOCKET) :
  ~ In s v -> remove_client (push_back v s) s = v.
Proof.
  unfold push_back. induction v as [|y v IH]; intros Hn.
  - simpl app. rewrite remove_client_cons, Z.eqb_refl. reflexivity.
  - simpl app. rewrite remove_client_cons. destruct (y =? s) eqn:E.
    + apply Z.eqb_eq in E. subst. exfalso. apply Hn. left. reflexivity.
    + rewrite IH; [reflexivity|]. intros H. apply Hn. right. assumption.
Qed.

(** The accept loop keeps the registry free of duplicates as long as
    [accept] hands out a handle that is not registered (an open handle is
    not handed out again, and a handle is erased before it is closed). *)
Lemma accept_client_NoDup (v : list SOCKET) (s : SOCKET) :
  NoDup v -> ~ In s v -> NoDup (accept_client v s).
Proof.
  intros Hnd Hn. unfold accept_client, push_back.
  destruct (s =? INVALID_SOCKET); [assumption|].
  apply NoDup_app; repeat split.
  - assumption.
  - constructor; [simpl; tauto | constructor].
  - intros a Ha [<-|[]]. tauto.
Qed.

(** ** Basic facts: the receive buffer *)

Lemma c_str_app_NUL (a b : list ascii) : c_str (a ++ NUL :: b) = c_str a.
Proof.
  induction a as [|c a IH]; simpl.
  - reflexivity.
  - destruct (Ascii.eqb c NUL); [reflexivity | rewrite IH; reflexivity].
Qed.

Lemma c_str_no_NUL (a : list ascii) : ~ In NUL a -> c_str a = a.
Proof.
  induction a as [|c a IH]; simpl; intros Hn; [reflexivity|].
  destruct (Ascii.eqb c NUL) eqn:E.
  - apply Ascii.eqb_eq in E. tauto.
  - rewrite IH; tauto.
Qed.

Lemma recv_count (o : recv_outcome) (buffer : list ascii) (len : Z) :
  0 <= len -> fst (recv o buffer len) <= len.
Proof.
  intros Hlen. destruct o as [bs| |]; simpl.
  - pose proof (firstn_le_length (Z.to_nat len) bs). lia.
  - assumption.
  - unfold SOCKET_ERROR. lia.
Qed.

Lemma recv_length (o : recv_outcome) (buffer : list ascii) (len : Z) :
  len <= Z.of_nat (length buffer) ->
  length (snd (recv o buffer len)) = length buffer.
Proof.
  intros Hlen. destruct o as [bs| |]; simpl; try reflexivity.
  rewrite length_app, length_skipn.
  pose proof (firstn_le_length (Z.to_nat len) bs). lia.
Qed.

Lemma length_update (l : list ascii) (n : nat) (c : ascii) :
  (n < length l)%nat -> length (firstn n l ++ c :: skipn (S n) l) = length l.
Proof.
  intros H. rewrite length_app, length_firstn, length_cons, length_skipn. lia.
Qed.

Lemma store_length (buffer buffer' : list ascii) (i : Z) (c : ascii) :
  store buffer i c = Some buffer' -> length buffer' = length buffer.
Proof.
  unfold store. destruct (0 <=? i) eqn:E1; [|discriminate].
  destruct (i <? Z.of_nat (length buffer)) eqn:E2; [|discriminate].
  apply Z.leb_le in E1. apply Z.ltb_lt in E2.
  intros H. injection H as <-. apply length_update. lia.
Qed.

Lemma store_in_bounds (buffer : list ascii) (i : Z) (c : ascii) :
  0 <= i < Z.of_nat (length buffer) ->
  store buffer i c
  = Some (firstn (Z.to_nat i) buffer ++ c :: skipn (S (Z.to_nat i)) buffer).
Proof.
  intros [H1 H2]. unfold store.
  apply Z.leb_le in H1. apply Z.ltb_lt in H2. rewrite H1, H2. reflexivity.
Qed.

(** One successful read: [bs] is what the call copies, the message is its
    part before the first NUL. *)
Lemma read_Data (bs buffer : list ascii) :
  Z.of_nat (length buffer) = sizeof_buffer ->
  let got := firstn (Z.to_nat (sizeof_buffer - 1)) bs in
  got <> [] ->
  exists buffer',
    recv (Data bs) buffer (sizeof_buffer - 1)
      = (Z.of_nat (length got), got ++ skipn (length got) buffer)
    /\ (Z.of_nat (length got) <=? 0) = false
    /\ store (got ++ skipn (length got) buffer) (Z.of_nat (length got)) NUL
       = Some buffer'
    /\ Z.of_nat (length buffer') = sizeof_buffer
    /\ c_str buffer' = c_str got.
Proof.
  intros Hlen got Hne.
  assert (Hgot : (length got <= Z.to_nat (sizeof_buffer - 1))%nat)
    by apply firstn_le_length.
  assert (Hpos : (0 < length got)%nat)
    by (destruct got; [congruence | simpl; lia]).
  set (buffer1 := got ++ skipn (length got) buffer).
  assert (Hlen1 : length buffer1 = length buffer).
  { unfold buffer1. rewrite length_app, length_skipn. lia. }
  eexists. split; [reflexivity|]. split; [apply Z.leb_gt; lia|].
  split; [apply store_in_bounds; fold buffer1; lia|].
  rewrite Nat2Z.id. fold buffer1. split.
  - rewrite length_update; lia.
  - unfold buffer1 at 1. rewrite firstn_app, firstn_all, Nat.sub_diag.
    simpl. rewrite app_nil_r. apply c_str_app_NUL.
Qed.

(** ** The receive loop, one turn at a time *)

Lemma recv_loop_Data net clientSocket clients buffer clientName bs script :
  Z.of_nat (length buffer) = sizeof_buffer ->
  firstn max_payload bs <> [] ->
  exists buffer',
    Z.of_nat (length buffer') = sizeof_buffer
    /\ recv_loop net clientSocket clients buffer clientName (Data bs :: script)
       = (let '(clientName', evs) :=
            handle_message net clientSocket clients clientName
                           (c_str (firstn max_payload bs)) in
          let '(evs', st) :=
            recv_loop net clientSocket clients buffer' clientName' script in
          (evs ++ evs', st)).
Proof.
  intros Hlen Hne.
  destruct (read_Data bs buffer Hlen Hne) as (b' & Hrecv & Hpos & Hst & Hl & Hc).
  exists b'. split; [assumption|].
  cbn [recv_loop]. rewrite Hrecv, Hpos, Hst, Hc. reflexivity.
Qed.

Lemma recv_loop_stop net clientSocket clients buffer clientName o script :
  fst (recv o buffer (sizeof_buffer - 1)) <= 0 ->
  recv_loop net clientSocket clients buffer clientName (o :: script)
  = ([EvCout (clientName ++ lit " disconnected.")], Exited).
Proof.
  intros H. cbn [recv_loop].
  destruct (recv o buffer (sizeof_buffer - 1)) as [n b]. cbn [fst] in H.
  apply Z.leb_le in H. rewrite H. reflexivity.
Qed.

Lemma recv_empty_stop (buffer : list ascii) (bs : list ascii) :
  firstn max_payload bs = [] ->
  fst (recv (Data bs) buffer (sizeof_buffer - 1)) <= 0.
Proof.
  unfold max_payload. intros H. cbn [recv fst]. rewrite H. simpl. lia.
Qed.

(** The server's loop never writes outside its buffer. *)
Lemma recv_loop_defined net clientSocket clients script :
  forall buffer clientName,
    Z.of_nat (length buffer) = sizeof_buffer ->
    snd (recv_loop net clientSocket clients buffer clientName script)
    <> Undefined.
Proof.
  induction script as [|o script IH]; intros buffer clientName Hlen.
  - discriminate.
  - destruct o as [bs| |].
    + destruct (firstn max_payload bs) eqn:E.
      * rewrite recv_loop_stop by (apply recv_empty_stop, E). discriminate.
      * destruct (recv_loop_Data net clientSocket clients buffer clientName
                    bs script Hlen) as (b' & Hl & ->); [rewrite E; discriminate|].
        destruct (handle_message _ _ _ _ _) as [n' evs].
        specialize (IH b' n' Hl).
        destruct (recv_loop net clientSocket clients b' n' script). exact IH.
    + rewrite recv_loop_stop by (cbn; lia). discriminate.
    + rewrite recv_loop_stop by (cbn; unfold SOCKET_ERROR; lia). discriminate.
Qed.

Lemma zero_buffer_length : Z.of_nat (length zero_buffer) = sizeof_buffer.
Proof. unfold zero_buffer. rewrite repeat_length. reflexivity. Qed.

(** The client's loop never writes outside its buffer either. *)
Lemma recvMesg_loop_defined script :
  forall buffer,
    Z.of_nat (length buffer) = sizeof_buffer ->
    snd (recvMesg_loop buffer script) <> Undefined.
Proof.
  induction script as [|o script IH]; intros buffer Hlen; [discriminate|].
  cbn [recvMesg_loop].
  destruct o as [bs| |].
  - destruct (firstn max_payload bs) eqn:E.
    + pose proof (recv_empty_stop buffer bs E) as H.
      destruct (recv (Data bs) buffer (sizeof_buffer - 1)) as [n b].
      cbn [fst] in H. apply Z.leb_le in H. rewrite H. discriminate.
    + destruct (read_Data bs buffer Hlen) as (b' & -> & -> & -> & Hl & _).
      { fold max_payload. rewrite E. discriminate. }
      specialize (IH b' Hl). destruct (recvMesg_loop b' script). exact IH.
  - cbn. discriminate.
  - cbn. discriminate.
Qed.

(** ** The claims *)

(** C1. Whatever the registry and whatever chat message (one that does not
    begin with the connect marker) a session's loop has read, the writes of
    that turn go to the registry entries whose handle differs from the
    sender's, each carrying the message, and none goes to the sender. *)
Theorem chat_message_fanout :
  forall net clientSocket clients clientName message,
    compare_eq0 message 0 (length connectPrefix) connectPrefix = false ->
    let evs := snd (handle_message net clientSocket clients clientName message) in
    sends evs
    = map (fun h => (h, message)) (filter (other_than clientSocket) clients)
    /\ (forall h p, In (h, p) (sends evs)
                    <-> In h clients /\ h <> clientSocket /\ p = message)
    /\ sent_to clientSocket evs = [].
Proof.
  intros net clientSocket clients clientName message Hchat evs.
  unfold evs, handle_message. rewrite Hchat. cbn [snd sends sent_to].
  split; [apply sends_broadcast|].
  split; [intros h p; apply in_sends_broadcast|].
  apply sent_to_broadcast_self.
Qed.

Lemma chat_message_fanout_witness :
  compare_eq0 (lit "hello") 0 (length connectPrefix) connectPrefix = false
  /\ sends (snd (handle_message quiet 1 [1; 2; 3] (lit "Alice") (lit "hello")))
     = [(2, lit "hello"); (3, lit "hello")].
Proof.
  split; [reflexivity|].
  exact (proj1 (chat_message_fanout quiet 1 [1; 2; 3] (lit "Alice")
                  (lit "hello") eq_refl)).
Defined.

Lemma length_c_str (a : list ascii) : (length (c_str a) <= length a)%nat.
Proof.
  induction a as [|c a IH]; simpl; [lia|].
  destruct (Ascii.eqb c NUL); simpl; lia.
Qed.

(** C9. Removing a handle from the registry twice is the same as removing it
    once, and removing a handle that is not registered changes nothing;
    [remove_client] is total, so neither can fail. The registry holds no
    handle twice ([accept_client_NoDup], [remove_client_NoDup]). *)
Theorem remove_client_idempotent :
  forall r h,
    NoDup r ->
    remove_client (remove_client r h) h = remove_client r h
    /\ ~ In h (remove_client r h)
    /\ (~ In h r -> remove_client r h = r).
Proof.
  intros r h Hnd. split; [|split].
  - apply remove_client_absent, remove_client_gone, Hnd.
  - apply remove_client_gone, Hnd.
  - apply remove_client_absent.
Qed.

Lemma remove_client_idempotent_witness :
  NoDup [4; 5; 6]
  /\ remove_client (remove_client [4; 5; 6] 5) 5 = remove_client [4; 5; 6] 5
  /\ remove_client [4; 5; 6] 7 = [4; 5; 6].
Proof.
  assert (H : NoDup [4; 5; 6]).
  { repeat (constructor; [simpl; lia|]). constructor. }
  split; [exact H|]. split.
  - exact (proj1 (remove_client_idempotent [4; 5; 6] 5 H)).
  - apply (proj2 (proj2 (remove_client_idempotent [4; 5; 6] 7 H))).
    simpl. lia.
Defined.

Lemma in_sent_to (s : SOCKET) (p : text) (tr : list event) :
  In p (sent_to s tr) <-> In (s, p) (sends tr).
Proof.
  induction tr as [|[s' q r| | | |] tr IH]; simpl; try tauto.
  destruct (s' =? s) eqn:E; simpl; rewrite IH.
  - apply Z.eqb_eq in E. subst. split; intros [H|H]; auto; left; congruence.
  - apply Z.eqb_neq in E. split; [tauto|]. intros [[= H1 H2]|H]; tauto.
Qed.

(** The notice and the raw announcement never coincide: the marker holds
    four underscores that [" connected."] does not have. *)
Lemma notice_is_not_announcement (X : text) :
  X ++ lit " connected." <> connectPrefix ++ X.
Proof.
  intros H.
  apply (f_equal (count_occ ascii_dec) ) in H.
  apply (f_equal (fun f => f underscore)) in H.
  rewrite !count_occ_app in H.
  change (count_occ ascii_dec (lit " connected.") underscore) with 0%nat in H.
  change (count_occ ascii_dec connectPrefix underscore) with 4%nat in H.
  lia.
Qed.

(** C4. An announcement that carries the name [X], read by the loop of a
    session, sets the session's name to [X]; every other handle of the
    registry is written to once, with ["X connected."]; the announcing
    handle and the handles outside the registry are not written to; and no
    write of that turn carries the raw announcement. *)
Theorem announcement_notice :
  forall net clientSocket clients clientName X,
    NoDup clients ->
    let message := connectPrefix ++ X in
    let notice := X ++ lit " connected." in
    let step := handle_message net clientSocket clients clientName message in
    fst step = X
    /\ (forall h, In h clients -> h <> clientSocket ->
                  sent_to h (snd step) = [notice])
    /\ sent_to clientSocket (snd step) = []
    /\ (forall h, ~ In h clients -> sent_to h (snd step) = [])
    /\ (forall h p, In (h, p) (sends (snd step)) ->
                    p = notice /\ p <> message).
Proof.
  intros net clientSocket clients clientName X Hnd message notice step.
  unfold step, handle_message, message.
  rewrite compare_eq0_app, substr_app. cbn [fst snd sent_to sends].
  fold notice. repeat split.
  - intros h Hin Hne. apply sent_to_broadcast_once; assumption.
  - apply sent_to_broadcast_self.
  - intros h Hn. apply sent_to_broadcast_absent, Hn.
  - apply in_sends_broadcast in H. tauto.
  - apply in_sends_broadcast in H as (_ & _ & ->).
    apply notice_is_not_announcement.
Qed.

Lemma NoDup_123 : NoDup [1; 2; 3].
Proof. repeat (constructor; [simpl; lia|]). constructor. Defined.

Lemma announcement_notice_witness :
  NoDup [1; 2; 3]
  /\ sent_to 2 (snd (handle_message quiet 1 [1; 2; 3] (lit "Unknown")
                       (lit "__CONNECT__Alice")))
     = [lit "Alice connected."].
Proof.
  split; [exact NoDup_123|].
  refine (proj1 (proj2 (announcement_notice quiet 1 [1; 2; 3] (lit "Unknown")
                          (lit "Alice") NoDup_123)) 2 _ _).
  - simpl. tauto.
  - discriminate.
Defined.

(** C3, as stated, fails: a handle is stored in the registry as soon as it
    is accepted, so a client that leaves without a word was registered
    until the cleanup of its thread. *)
Lemma silent_client_was_registered :
  In 7 (accept_client [5] 7)
  /\ HandleClient quiet 7 (accept_client [5] 7) [Eof]
     = ([EvCout (lit "Unknown disconnected."); EvCloseSocket 7], [5], Exited).
Proof. split; [right; left; reflexivity | vm_compute; reflexivity]. Qed.

(** C3, amended. A client that is accepted and then closes (or resets) its
    connection before sending anything is in the registry from the accept
    on; its thread writes to no one, erases the handle again and leaves the
    registry as it was before the accept. *)
Theorem silent_client_lifecycle :
  forall net clients clientSocket o script,
    clientSocket <> INVALID_SOCKET ->
    ~ In clientSocket clients ->
    o = Eof \/ o = ConnReset ->
    In clientSocket (accept_client clients clientSocket)
    /\ HandleClient net clientSocket (accept_client clients clientSocket)
                    (o :: script)
       = ([EvCout (lit "Unknown disconnected."); EvCloseSocket clientSocket],
          clients, Exited).
Proof.
  intros net clients clientSocket o script Hvalid Hfresh Ho.
  unfold accept_client. apply Z.eqb_neq in Hvalid. rewrite Hvalid.
  split; [unfold push_back; apply in_or_app; right; left; reflexivity|].
  unfold HandleClient. rewrite recv_loop_stop.
  - rewrite remove_client_push_back by assumption. reflexivity.
  - destruct Ho as [-> | ->]; cbn; unfold SOCKET_ERROR; lia.
Qed.

Lemma silent_client_lifecycle_witness :
  HandleClient quiet 7 (accept_client [5; 6] 7) [ConnReset]
  = ([EvCout (lit "Unknown disconnected."); EvCloseSocket 7], [5; 6], Exited).
Proof.
  refine (proj2 (silent_client_lifecycle quiet [5; 6] 7 ConnReset [] _ _ _)).
  - discriminate.
  - simpl. lia.
  - right. reflexivity.
Defined.

Lemma firstn_max_payload_cons (b : ascii) (bs : list ascii) :
  firstn max_payload (b :: bs) <> [].
Proof.
  assert (E : exists n, max_payload = S n) by (exists 4094%nat; reflexivity).
  destruct E as [n ->]. discriminate.
Qed.

Lemma firstn_max_payload_short (bs : list ascii) :
  (length bs <= max_payload)%nat -> firstn max_payload bs = bs.
Proof. apply firstn_all2. Qed.

Lemma connectPrefix_no_NUL : ~ In NUL connectPrefix.
Proof.
  unfold connectPrefix, NUL. not_in_literal.
Qed.

(** Whatever the loop has read so far, an announcement read next renames
    the session and is announced. *)
Lemma recv_loop_announce net clientSocket clients X script1 :
  ~ In NUL X ->
  (length (connectPrefix ++ X) <= max_payload)%nat ->
  forallb keeps_reading script1 = true ->
  forall buffer clientName,
    Z.of_nat (length buffer) = sizeof_buffer ->
    exists tr1,
      recv_loop net clientSocket clients buffer clientName
                (script1 ++ [Data (connectPrefix ++ X); Eof])
      = (tr1 ++ EvCout (X ++ lit " connected.")
             :: broadcast net clients clientSocket (X ++ lit " connected.")
             ++ [EvCout (X ++ lit " disconnected.")],
         Exited).
Proof.
  intros HX Hlen.
  induction script1 as [|o script1 IH]; intros Hk buffer clientName Hb.
  - exists []. cbn [app].
    destruct (recv_loop_Data net clientSocket clients buffer clientName
                (connectPrefix ++ X) [Eof] Hb) as (b' & Hb' & ->).
    { rewrite firstn_max_payload_short by assumption.
      unfold connectPrefix. discriminate. }
    rewrite firstn_max_payload_short by assumption.
    rewrite c_str_no_NUL.
    2:{ intros H. apply in_app_or in H as [H|H];
        [apply connectPrefix_no_NUL, H | apply HX, H]. }
    unfold handle_message. rewrite compare_eq0_app, substr_app.
    rewrite recv_loop_stop by (cbn; lia). reflexivity.
  - cbn [forallb] in Hk. apply andb_true_iff in Hk as [Ho Hk].
    destruct o as [[|b bs]| |]; try discriminate.
    cbn [app].
    destruct (recv_loop_Data net clientSocket clients buffer clientName
                (b :: bs) (script1 ++ [Data (connectPrefix ++ X); Eof]) Hb)
      as (b' & Hb' & ->); [apply firstn_max_payload_cons|].
    destruct (handle_message _ _ _ _ _) as [n' evs].
    destruct (IH Hk b' n' Hb') as [tr1 ->].
    exists (evs ++ tr1). rewrite <- app_assoc. reflexivity.
Qed.

(** C5, as stated, fails: a session that has announced itself as Alice and
    then sends a second announcement is renamed to Bob, and the others get
    a second notice. *)
Lemma second_announcement_renames :
  HandleClient quiet 1 [1; 2]
    [Data (lit "__CONNECT__Alice"); Data (lit "__CONNECT__Bob"); Eof]
  = ([EvCout (lit "Alice connected.");
      EvSend 2 (lit "Alice connected.") 16;
      EvCout (lit "Bob connected.");
      EvSend 2 (lit "Bob connected.") 14;
      EvCout (lit "Bob disconnected.");
      EvCloseSocket 1],
     [2], Exited).
Proof. vm_compute. reflexivity. Qed.

(** C5, amended. The server keeps no record of whether a session has
    announced itself. After any number of earlier reads, announcements
    among them or not, a message that begins with the marker renames the
    session to the rest of the message and announces it to the others; a
    message that does not begin with the marker is passed on as chat and
    leaves the name as it is. *)
Theorem announcement_at_any_time :
  forall net clientSocket clients script1 X,
    forallb keeps_reading script1 = true ->
    ~ In NUL X ->
    (length (connectPrefix ++ X) <= max_payload)%nat ->
    (exists tr1,
        HandleClient net clientSocket clients
                     (script1 ++ [Data (connectPrefix ++ X); Eof])
        = (tr1 ++ EvCout (X ++ lit " connected.")
               :: broadcast net clients clientSocket (X ++ lit " connected.")
               ++ [EvCout (X ++ lit " disconnected.");
                   EvCloseSocket clientSocket],
           remove_client clients clientSocket, Exited))
    /\ (forall clientName message,
           compare_eq0 message 0 (length connectPrefix) connectPrefix = false ->
           handle_message net clientSocket clients clientName message
           = (clientName,
              EvCout (lit "Message from " ++ clientName ++ lit ": " ++ message)
                :: broadcast net clients clientSocket message)).
Proof.
  intros net clientSocket clients script1 X Hk HX Hlen. split.
  - destruct (recv_loop_announce net clientSocket clients X script1 HX Hlen Hk
                zero_buffer (lit "Unknown") zero_buffer_length) as [tr1 E].
    exists tr1. unfold HandleClient. rewrite E.
    rewrite <- app_assoc. cbn [app]. rewrite <- app_assoc. reflexivity.
  - intros clientName message Hchat. unfold handle_message.
    rewrite Hchat. reflexivity.
Qed.

Lemma announcement_at_any_time_witness :
  exists tr1,
    HandleClient quiet 1 [1; 2]
      ([Data (lit "__CONNECT__Alice"); Data (lit "hello")]
         ++ [Data (connectPrefix ++ lit "Bob"); Eof])
    = (tr1 ++ EvCout (lit "Bob" ++ lit " connected.")
           :: broadcast quiet [1; 2] 1 (lit "Bob" ++ lit " connected.")
           ++ [EvCout (lit "Bob" ++ lit " disconnected."); EvCloseSocket 1],
       remove_client [1; 2] 1, Exited).
Proof.
  refine (proj1 (announcement_at_any_time quiet 1 [1; 2]
                   [Data (lit "__CONNECT__Alice"); Data (lit "hello")]
                   (lit "Bob") eq_refl _ _)).
  - unfold NUL. not_in_literal.
  - apply Nat.leb_le. vm_compute. reflexivity.
Defined.

Lemma HandleClient_registry net clientSocket clients script :
  snd (fst (HandleClient net clientSocket clients script)) = clients
  \/ snd (fst (HandleClient net clientSocket clients script))
     = remove_client clients clientSocket.
Proof.
  unfold HandleClient.
  destruct (recv_loop _ _ _ _ _ _) as [evs []]; cbn [fst snd]; auto.
Qed.

(** C6, as stated, fails: the write to handle 2 fails, the broadcast goes on
    to handle 3, but handle 2 is still in the registry when the sender's
    thread has finished. *)
Lemma failed_recipient_stays_registered :
  HandleClient flaky 1 [1; 2; 3] [Data (lit "hello"); Eof]
  = ([EvCout (lit "Message from Unknown: hello");
      EvSend 2 (lit "hello") SOCKET_ERROR;
      EvSend 3 (lit "hello") 5;
      EvCout (lit "Unknown disconnected.");
      EvCloseSocket 1],
     [2; 3], Exited).
Proof. vm_compute. reflexivity. Qed.

(** C6, amended. The server drops the value [send] returns. When the write
    to one recipient fails, the broadcast still writes to every other
    registered handle, exactly as it would on a network without failures,
    and the recipient whose write failed is not removed: it is still in the
    registry the sender's thread leaves behind. *)
Theorem failed_write_is_ignored :
  forall net clientSocket clients payload k,
    In k clients -> k <> clientSocket ->
    send net k payload = SOCKET_ERROR ->
    (forall h, In h clients -> h <> clientSocket ->
               In (EvSend h payload (send net h payload))
                  (broadcast net clients clientSocket payload))
    /\ sends (broadcast net clients clientSocket payload)
       = sends (broadcast quiet clients clientSocket payload)
    /\ (forall script,
           In k (snd (fst (HandleClient net clientSocket clients script)))).
Proof.
  intros net clientSocket clients payload k Hin Hne _. split; [|split].
  - intros h Hh Hhne. apply in_broadcast; assumption.
  - rewrite !sends_broadcast. reflexivity.
  - intros script.
    destruct (HandleClient_registry net clientSocket clients script) as [-> | ->].
    + assumption.
    + apply remove_client_keeps; assumption.
Qed.

Lemma failed_write_is_ignored_witness :
  send flaky 2 (lit "hello") = SOCKET_ERROR
  /\ In (EvSend 3 (lit "hello") 5) (broadcast flaky [1; 2; 3] 1 (lit "hello"))
  /\ In 2 (snd (fst (HandleClient flaky 1 [1; 2; 3]
                       [Data (lit "hello"); Eof]))).
Proof.
  assert (H2 : In 2 [1; 2; 3]) by (simpl; tauto).
  assert (H3 : In 3 [1; 2; 3]) by (simpl; tauto).
  assert (N2 : (2 : SOCKET) <> 1) by discriminate.
  assert (N3 : (3 : SOCKET) <> 1) by discriminate.
  pose proof (failed_write_is_ignored flaky 1 [1; 2; 3] (lit "hello") 2
                H2 N2 eq_refl) as (Hall & _ & Hreg).
  split; [reflexivity|]. split.
  - exact (Hall 3 H3 N3).
  - exact (Hreg [Data (lit "hello"); Eof]).
Defined.

(** C2, as stated, fails: Alice's session sends the bare text [hello], and
    the other session receives [hello], not [Alice : hello]. *)
Lemma server_adds_no_prefix :
  sent_to 2 (fst (fst (HandleClient quiet 1 [1; 2]
                         [Data (lit "__CONNECT__Alice"); Data (lit "hello");
                          Eof])))
  = [lit "Alice connected."; lit "hello"].
Proof. vm_compute. reflexivity. Qed.

(** C2, amended. The server passes a chat message on as it read it: every
    write of that turn carries the message itself, with nothing put in
    front, and each other registered handle gets it. The form
    ["<name> : <text>"] is made by the sending client: for every line that
    is not empty, [sendMesg]'s loop writes its own chat name, [" : "] and
    the line. *)
Theorem chat_prefix_is_client_side :
  forall net clientSocket clients clientName message,
    compare_eq0 message 0 (length connectPrefix) connectPrefix = false ->
    let evs := snd (handle_message net clientSocket clients clientName message) in
    (forall h p, In p (sent_to h evs) -> p = message)
    /\ (forall h, In h clients -> h <> clientSocket ->
                  In message (sent_to h evs))
    /\ (forall net' s name c line stdin',
           exists evs' st,
             send_loop net' s name ((c :: line) :: stdin')
             = (EvCout prompt
                  :: EvSend s (name ++ lit " : " ++ c :: line)
                            (send net' s (name ++ lit " : " ++ c :: line))
                  :: evs', st)).
Proof.
  intros net clientSocket clients clientName message Hchat evs.
  unfold evs, handle_message. rewrite Hchat. cbn [snd sent_to].
  split; [|split].
  - intros h p Hp. apply in_sent_to, in_sends_broadcast in Hp. tauto.
  - intros h Hin Hne. apply in_sent_to, in_sends_broadcast. tauto.
  - intros net' s name c line stdin'. cbn [send_loop empty].
    destruct (send net' s _ =? SOCKET_ERROR); [eauto|].
    destruct (text_eqb (c :: line) (lit "quit")
              || text_eqb (c :: line) (lit "exit")); [eauto|].
    destruct (send_loop net' s name stdin') as [evs' st]. eauto.
Qed.

Lemma chat_prefix_is_client_side_witness :
  compare_eq0 (lit "hello") 0 (length connectPrefix) connectPrefix = false
  /\ In (lit "hello")
        (sent_to 2 (snd (handle_message quiet 1 [1; 2] (lit "Alice")
                           (lit "hello")))).
Proof.
  split; [reflexivity|].
  refine (proj1 (proj2 (chat_prefix_is_client_side quiet 1 [1; 2]
                          (lit "Alice") (lit "hello") eq_refl)) 2 _ _).
  - simpl. tauto.
  - discriminate.
Defined.

Lemma connectPrefix_no_space : ~ In space connectPrefix.
Proof.
  unfold connectPrefix, space. not_in_literal.
Qed.

(** A name that does not begin with the marker, followed by a blank, does
    not begin with the marker either. *)
Lemma compare_eq0_name (name rest : text) :
  compare_eq0 name 0 (length connectPrefix) connectPrefix = false ->
  compare_eq0 (name ++ space :: rest) 0 (length connectPrefix) connectPrefix
  = false.
Proof.
  unfold compare_eq0. rewrite !skipn_0, !text_eqb_neq. intros Hn H.
  rewrite firstn_app in H.
  destruct (Nat.le_gt_cases (length connectPrefix) (length name)) as [L|L].
  - replace (length connectPrefix - length name)%nat with 0%nat in H by lia.
    rewrite firstn_0, app_nil_r in H. contradiction.
  - apply connectPrefix_no_space. rewrite <- H. apply in_or_app. right.
    destruct (length connectPrefix - length name)%nat eqn:E; [lia|].
    left. reflexivity.
Qed.




(** ** Further properties: the server's handler thread *)

Lemma keeps_reading_Data (o : recv_outcome) :
  keeps_reading o = true ->
  exists bs, o = Data bs /\ firstn max_payload bs <> [].
Proof.
  destruct o as [[|b bs]| |]; try discriminate. intros _.
  exists (b :: bs). split; [reflexivity | apply firstn_max_payload_cons].
Qed.

Lemma not_keeps_reading_stop (o : recv_outcome) (buffer : list ascii) :
  keeps_reading o = false ->
  fst (recv o buffer (sizeof_buffer - 1)) <= 0.
Proof.
  destruct o as [[|b bs]| |]; try discriminate; intros _; cbn;
    unfold SOCKET_ERROR; lia.
Qed.

(** One turn of the loop on a read with data; the buffer it leaves does
    not depend on what is read later. *)
Lemma recv_loop_go net clientSocket clients buffer clientName o :
  Z.of_nat (length buffer) = sizeof_buffer ->
  keeps_reading o = true ->
  exists bs buffer',
    o = Data bs
    /\ Z.of_nat (length buffer') = sizeof_buffer
    /\ forall script,
        recv_loop net clientSocket clients buffer clientName (o :: script)
        = (let '(clientName', evs) :=
             handle_message net clientSocket clients clientName
                            (c_str (firstn max_payload bs)) in
           let '(evs', st) :=
             recv_loop net clientSocket clients buffer' clientName' script in
           (evs ++ evs', st)).
Proof.
  intros Hb Hk. destruct (keeps_reading_Data o Hk) as (bs & -> & Hne).
  destruct (read_Data bs buffer Hb Hne) as (b' & Hrecv & Hpos & Hst & Hl & Hc).
  exists bs, b'. split; [reflexivity|]. split; [assumption|].
  intros script. cbn [recv_loop]. rewrite Hrecv, Hpos, Hst, Hc. reflexivity.
Qed.

Lemma recv_loop_status net clientSocket clients script :
  forall buffer clientName,
    Z.of_nat (length buffer) = sizeof_buffer ->
    snd (recv_loop net clientSocket clients buffer clientName script)
    = if forallb keeps_reading script then Running else Exited.
Proof.
  induction script as [|o script IH]; intros buffer clientName Hb.
  - reflexivity.
  - cbn [forallb]. destruct (keeps_reading o) eqn:Hk; cbn [andb].
    + destruct (recv_loop_go net clientSocket clients buffer clientName o
                  Hb Hk) as (bs & b' & _ & Hb' & E). rewrite E.
      destruct (handle_message _ _ _ _ _) as [n' evs].
      specialize (IH b' n' Hb').
      destruct (recv_loop net clientSocket clients b' n' script). exact IH.
    + rewrite recv_loop_stop by (apply not_keeps_reading_stop, Hk).
      reflexivity.
Qed.

(** X1. A handler thread leaves its loop exactly when a read brings no data
    (shutdown, error, or an empty read); as long as every read has data it
    stays in the loop, and in no run does it write outside its buffer. *)
Theorem HandleClient_leaves_on_first_empty_read :
  forall net clientSocket clients script,
    snd (HandleClient net clientSocket clients script)
    = if forallb keeps_reading script then Running else Exited.
Proof.
  intros net clientSocket clients script. unfold HandleClient.
  pose proof (recv_loop_status net clientSocket clients script zero_buffer
                (lit "Unknown") zero_buffer_length) as H.
  destruct (recv_loop _ _ _ _ _ _) as [evs st]. cbn [snd] in H. subst st.
  destruct (forallb keeps_reading script); reflexivity.
Qed.

Lemma sends_app (tr tr' : list event) :
  sends (tr ++ tr') = sends tr ++ sends tr'.
Proof.
  induction tr as [|[] tr IH]; simpl; rewrite ?IH; reflexivity.
Qed.

Lemma sent_to_app (s : SOCKET) (tr tr' : list event) :
  sent_to s (tr ++ tr') = sent_to s tr ++ sent_to s tr'.
Proof.
  induction tr as [|[s' p r| | | |] tr IH]; simpl; rewrite ?IH;
    try reflexivity.
  destruct (s' =? s); reflexivity.
Qed.

Lemma sends_handle_message net clientSocket clients clientName message :
  sends (snd (handle_message net clientSocket clients clientName message))
  = fanout clients clientSocket
           (if compare_eq0 message 0 (length connectPrefix) connectPrefix
            then substr message (length connectPrefix) ++ lit " connected."
            else message).
Proof.
  unfold handle_message, fanout.
  destruct (compare_eq0 _ _ _ _); cbn [snd sends]; apply sends_broadcast.
Qed.

Lemma in_fanout clients clientSocket m h p :
  In (h, p) (fanout clients clientSocket m)
  <-> In h clients /\ h <> clientSocket /\ p = m.
Proof.
  unfold fanout. rewrite in_map_iff. split.
  - intros (x & [= -> ->] & Hin). apply filter_In in Hin as [Hin Hne].
    unfold other_than in Hne. apply negb_true_iff, Z.eqb_neq in Hne. auto.
  - intros (Hin & Hne & ->). exists h. split; [reflexivity|].
    apply filter_In. split; [assumption|].
    unfold other_than. apply negb_true_iff, Z.eqb_neq, Hne.
Qed.

(** The buffer a turn starts with does not matter. *)
Lemma recv_loop_buffer net clientSocket clients script :
  forall buffer1 buffer2 clientName,
    Z.of_nat (length buffer1) = sizeof_buffer ->
    Z.of_nat (length buffer2) = sizeof_buffer ->
    recv_loop net clientSocket clients buffer1 clientName script
    = recv_loop net clientSocket clients buffer2 clientName script.
Proof.
  induction script as [|o script IH]; intros b1 b2 clientName H1 H2.
  - reflexivity.
  - destruct (keeps_reading o) eqn:Hk.
    + destruct (recv_loop_go net clientSocket clients b1 clientName o H1 Hk)
        as (bs & b1' & Ho & Hb1 & E1).
      destruct (recv_loop_go net clientSocket clients b2 clientName o H2 Hk)
        as (bs' & b2' & Ho' & Hb2 & E2).
      rewrite E1, E2. rewrite Ho in Ho'. injection Ho' as <-.
      destruct (handle_message _ _ _ _ _) as [n' evs].
      rewrite (IH b1' b2' n' Hb1 Hb2). reflexivity.
    + rewrite !recv_loop_stop by (apply not_keeps_reading_stop, Hk).
      reflexivity.
Qed.

(** X3. What the receive buffer holds when a turn of the loop starts does
    not matter: the bytes left in it by earlier, longer reads are cut off by
    the terminator of the new read and never show up in a later message. *)
Theorem stale_bytes_never_leak :
  forall net clientSocket clients script buffer1 buffer2 clientName,
    Z.of_nat (length buffer1) = sizeof_buffer ->
    Z.of_nat (length buffer2) = sizeof_buffer ->
    recv_loop net clientSocket clients buffer1 clientName script
    = recv_loop net clientSocket clients buffer2 clientName script.
Proof.
  intros net clientSocket clients script. apply recv_loop_buffer.
Qed.

Lemma stale_bytes_never_leak_witness :
  recv_loop quiet 1 [1; 2] zero_buffer (lit "Bob")
            [Data (lit "a long line"); Data (lit "hi"); Eof]
  = recv_loop quiet 1 [1; 2] (repeat "x"%char 4096) (lit "Bob")
              [Data (lit "a long line"); Data (lit "hi"); Eof].
Proof.
  apply stale_bytes_never_leak.
  - apply zero_buffer_length.
  - rewrite repeat_length. reflexivity.
Defined.

Lemma Forall_loop_event_broadcast net clients clientSocket payload :
  Forall loop_event (broadcast net clients clientSocket payload).
Proof.
  induction clients as [|h rest IH]; simpl; [constructor|].
  destruct (h =? clientSocket); [assumption|].
  constructor; [exact I | assumption].
Qed.

Lemma Forall_loop_event_handle_message net clientSocket clients clientName
      message :
  Forall loop_event
         (snd (handle_message net clientSocket clients clientName message)).
Proof.
  unfold handle_message. destruct (compare_eq0 _ _ _ _); cbn [snd];
    (constructor; [exact I | apply Forall_loop_event_broadcast]).
Qed.

Lemma Forall_loop_event_recv_loop net clientSocket clients script :
  forall buffer clientName,
    Z.of_nat (length buffer) = sizeof_buffer ->
    Forall loop_event
           (fst (recv_loop net clientSocket clients buffer clientName script)).
Proof.
  induction script as [|o script IH]; intros buffer clientName Hb.
  - constructor.
  - destruct (keeps_reading o) eqn:Hk.
    + destruct (recv_loop_go net clientSocket clients buffer clientName o
                  Hb Hk) as (bs & b' & _ & Hb' & E).
      rewrite E.
      pose proof (Forall_loop_event_handle_message net clientSocket clients
                    clientName (c_str (firstn max_payload bs))) as Hh.
      destruct (handle_message _ _ _ _ _) as [n' evs]. cbn [snd] in Hh.
      specialize (IH b' n' Hb').
      destruct (recv_loop net clientSocket clients b' n' script).
      cbn [fst] in *. apply Forall_app. split; assumption.
    + rewrite recv_loop_stop by (apply not_keeps_reading_stop, Hk).
      repeat constructor.
Qed.

Lemma closes_app s tr tr' : closes s (tr ++ tr') = (closes s tr + closes s tr')%nat.
Proof. unfold closes. rewrite filter_app, length_app. reflexivity. Qed.

Lemma cleanups_app tr tr' : cleanups (tr ++ tr') = (cleanups tr + cleanups tr')%nat.
Proof. unfold cleanups. rewrite filter_app, length_app. reflexivity. Qed.

Lemma loop_event_no_release tr s :
  Forall loop_event tr -> closes s tr = 0%nat /\ cleanups tr = 0%nat.
Proof.
  unfold closes, cleanups.
  induction 1 as [|e tr He _ IH]; [split; reflexivity|].
  destruct e; try contradiction; simpl; exact IH.
Qed.

(** X4. A handler thread releases exactly what is its own. When it leaves
    its loop it erases its handle from the registry and closes its socket
    once; while it stays in the loop the registry is as it found it and
    nothing is closed. It never closes the socket of another session and
    never calls [WSACleanup]. *)
Theorem HandleClient_releases_its_own :
  forall net clientSocket clients script s,
    let '(tr, registry, st) := HandleClient net clientSocket clients script in
    registry = (if forallb keeps_reading script then clients
                else remove_client clients clientSocket)
    /\ closes s tr = (if forallb keeps_reading script then 0%nat
                      else if s =? clientSocket then 1%nat else 0%nat)
    /\ cleanups tr = 0%nat.
Proof.
  intros net clientSocket clients script s. unfold HandleClient.
  pose proof (recv_loop_status net clientSocket clients script zero_buffer
                (lit "Unknown") zero_buffer_length) as Hst.
  pose proof (Forall_loop_event_recv_loop net clientSocket clients script
                zero_buffer (lit "Unknown") zero_buffer_length) as Hev.
  destruct (recv_loop _ _ _ _ _ _) as [evs st]. cbn [fst snd] in *.
  destruct (loop_event_no_release evs s Hev) as [Hc Hw].
  destruct (forallb keeps_reading script); subst st.
  - auto.
  - rewrite closes_app, cleanups_app, Hc, Hw. unfold closes, cleanups.
    cbn [filter]. rewrite (Z.eqb_sym clientSocket s).
    destruct (s =? clientSocket); auto.
Qed.

(** X5. One read without data is final: the handler does not read again,
    so whatever the connection would deliver afterwards changes nothing. *)
Theorem HandleClient_reads_nothing_after_leaving :
  forall net clientSocket clients script1 o script2,
    keeps_reading o = false ->
    HandleClient net clientSocket clients (script1 ++ o :: script2)
    = HandleClient net clientSocket clients (script1 ++ [o]).
Proof.
  intros net clientSocket clients script1 o script2 Hk. unfold HandleClient.
  assert (E : forall buffer clientName,
             Z.of_nat (length buffer) = sizeof_buffer ->
             recv_loop net clientSocket clients buffer clientName
                       (script1 ++ o :: script2)
             = recv_loop net clientSocket clients buffer clientName
                         (script1 ++ [o])).
  { induction script1 as [|o1 script1 IH]; intros buffer clientName Hb.
    - cbn [app]. rewrite !recv_loop_stop
        by (apply not_keeps_reading_stop, Hk). reflexivity.
    - cbn [app]. destruct (keeps_reading o1) eqn:Hk1.
      + destruct (recv_loop_go net clientSocket clients buffer clientName o1
                    Hb Hk1) as (bs & b' & _ & Hb' & E).
        rewrite !E. destruct (handle_message _ _ _ _ _) as [n' evs].
        rewrite (IH b' n' Hb'). reflexivity.
      + rewrite !recv_loop_stop by (apply not_keeps_reading_stop, Hk1).
        reflexivity. }
  rewrite (E zero_buffer (lit "Unknown") zero_buffer_length). reflexivity.
Qed.

Lemma HandleClient_reads_nothing_after_leaving_witness :
  HandleClient quiet 1 [1; 2]
               ([Data (lit "hi")] ++ ConnReset :: [Data (lit "late")])
  = HandleClient quiet 1 [1; 2] ([Data (lit "hi")] ++ [ConnReset]).
Proof.
  exact (HandleClient_reads_nothing_after_leaving quiet 1 [1; 2]
           [Data (lit "hi")] ConnReset [Data (lit "late")] eq_refl).
Defined.

Lemma c_str_idempotent (a : list ascii) : c_str (c_str a) = c_str a.
Proof.
  induction a as [|c a IH]; simpl; [reflexivity|].
  destruct (Ascii.eqb c NUL) eqn:E; simpl; [reflexivity|].
  rewrite E, IH. reflexivity.
Qed.

Lemma nonempty_keeps_reading (bs : list ascii) :
  bs <> [] -> keeps_reading (Data bs) = true.
Proof. destruct bs; [congruence | reflexivity]. Qed.

(** X7. A read whose first byte is NUL is not dropped: the handler takes it
    for an empty chat message and writes an empty payload to every other
    registered handle, then goes on reading. *)
Theorem empty_message_is_relayed :
  forall net clientSocket clients buffer clientName b script,
    Z.of_nat (length buffer) = sizeof_buffer ->
    recv_loop net clientSocket clients buffer clientName
              (Data (NUL :: b) :: script)
    = (EvCout (lit "Message from " ++ clientName ++ lit ": ")
         :: broadcast net clients clientSocket []
         ++ fst (recv_loop net clientSocket clients buffer clientName script),
       snd (recv_loop net clientSocket clients buffer clientName script)).
Proof.
  intros net clientSocket clients buffer clientName b script Hb.
  destruct (recv_loop_go net clientSocket clients buffer clientName
              (Data (NUL :: b)) Hb eq_refl) as (bs & b' & E & Hb' & R).
  injection E as <-. rewrite R.
  assert (Hc : c_str (firstn max_payload (NUL :: b)) = []).
  { assert (E : exists n, max_payload = S n) by (exists 4094%nat; reflexivity).
    destruct E as [n ->]. reflexivity. }
  rewrite Hc. unfold handle_message.
  change (compare_eq0 [] 0 (length connectPrefix) connectPrefix) with false.
  cbv beta iota zeta.
  rewrite (recv_loop_buffer net clientSocket clients script b' buffer
             clientName Hb' Hb).
  destruct (recv_loop net clientSocket clients buffer clientName script).
  cbn [fst snd app]. rewrite app_nil_r. reflexivity.
Qed.

Lemma empty_message_is_relayed_witness :
  recv_loop quiet 1 [1; 2] zero_buffer (lit "Bob") [Data (NUL :: lit "x"); Eof]
  = (EvCout (lit "Message from " ++ lit "Bob" ++ lit ": ")
       :: broadcast quiet [1; 2] 1 []
       ++ fst (recv_loop quiet 1 [1; 2] zero_buffer (lit "Bob") [Eof]),
     snd (recv_loop quiet 1 [1; 2] zero_buffer (lit "Bob") [Eof])).
Proof.
  apply empty_message_is_relayed. apply zero_buffer_length.
Defined.

Lemma plain_read (m : text) :
  plain m ->
  keeps_reading (Data m) = true /\ c_str (firstn max_payload m) = m.
Proof.
  intros (Hne & HNUL & Hlen & _). split.
  - apply nonempty_keeps_reading, Hne.
  - rewrite firstn_max_payload_short by exact Hlen. apply c_str_no_NUL, HNUL.
Qed.


(** ** Further properties: the accept loop and the registry *)

Lemma accept_loop_spec (accepts : list (SOCKET * Z)) :
  forall clients,
    snd (accept_loop clients accepts) = clients ++ valid_handles accepts
    /\ spawned (fst (accept_loop clients accepts)) = valid_handles accepts
    /\ snd (accept_loop clients accepts)
       = fold_left accept_client (map fst accepts) clients.
Proof.
  unfold valid_handles.
  induction accepts as [|[s err] accepts IH]; intros clients.
  - cbn. rewrite app_nil_r. auto.
  - cbn [accept_loop map fst filter fold_left]. unfold accept_client at 2.
    destruct (s =? INVALID_SOCKET); cbn [negb].
    + destruct (IH clients) as (H1 & H2 & H3).
      destruct (accept_loop clients accepts) as [acts final].
      cbn [fst snd spawned flat_map app] in *. auto.
    + destruct (IH (push_back clients s)) as (H1 & H2 & H3).
      destruct (accept_loop (push_back clients s) accepts) as [acts final].
      cbn [fst snd spawned flat_map app] in *.
      unfold push_back in H1. rewrite <- app_assoc in H1.
      rewrite H2. auto.
Qed.

(** X9. The accept loop stores every handle that [accept] returns, in
    order, behind what the registry held, and starts one handler thread for
    each of them; a failed [accept] adds nothing, starts nothing, and does
    not end the loop. *)
Theorem accept_loop_registers_and_spawns :
  forall clients accepts,
    snd (accept_loop clients accepts) = clients ++ valid_handles accepts
    /\ spawned (fst (accept_loop clients accepts)) = valid_handles accepts
    /\ snd (accept_loop clients accepts)
       = fold_left accept_client (map fst accepts) clients.
Proof. intros clients accepts. apply accept_loop_spec. Qed.

Lemma HandleClient_registry_after net clientSocket clients script :
  snd (fst (HandleClient net clientSocket clients script))
  = if forallb keeps_reading script then clients
    else remove_client clients clientSocket.
Proof.
  unfold HandleClient.
  pose proof (recv_loop_status net clientSocket clients script zero_buffer
                (lit "Unknown") zero_buffer_length) as Hst.
  destruct (recv_loop _ _ _ _ _ _) as [evs st]. cbn [snd] in Hst. subst st.
  destruct (forallb keeps_reading script); reflexivity.
Qed.

(** X10. Accepting a connection and serving it to its end leaves the
    registry as it was: whatever the session sent, once its handler has
    left, the handle that the accept loop stored is gone again and every
    other entry is in its place. *)
Theorem accept_then_leave_restores_registry :
  forall net clients clientSocket script,
    clientSocket <> INVALID_SOCKET ->
    ~ In clientSocket clients ->
    forallb keeps_reading script = false ->
    snd (fst (HandleClient net clientSocket
                           (accept_client clients clientSocket) script))
    = clients.
Proof.
  intros net clients clientSocket script Hvalid Hfresh Hleft.
  rewrite HandleClient_registry_after, Hleft.
  unfold accept_client. apply Z.eqb_neq in Hvalid. rewrite Hvalid.
  apply remove_client_push_back, Hfresh.
Qed.

Lemma accept_then_leave_restores_registry_witness :
  snd (fst (HandleClient quiet 7 (accept_client [5; 6] 7)
                         [Data (lit "hello"); Eof]))
  = [5; 6].
Proof.
  apply accept_then_leave_restores_registry.
  - discriminate.
  - simpl. lia.
  - reflexivity.
Defined.

(** ** Further properties: start-up of the server *)

Lemma accept_loop_io (accepts : list (SOCKET * Z)) :
  forall clients, Forall loop_event (io_of (fst (accept_loop clients accepts))).
Proof.
  induction accepts as [|[s err] accepts IH]; intros clients.
  - constructor.
  - cbn [accept_loop]. destruct (s =? INVALID_SOCKET).
    + specialize (IH clients). destruct (accept_loop clients accepts).
      cbn [fst io_of flat_map app] in *. constructor; [exact I | exact IH].
    + specialize (IH (push_back clients s)).
      destruct (accept_loop (push_back clients s) accepts).
      cbn [fst io_of flat_map app] in *. constructor; [exact I | exact IH].
Qed.

(** X11. When a step of the server's start-up fails, [main] returns
    [EXIT_FAILURE] without accepting anyone, and it has released exactly
    what it had acquired: the library is shut down once if (and only if) it
    had been started, and the listening socket is closed once if (and only
    if) it had been created. *)
Theorem server_main_startup_failure :
  forall w accepts,
    server_ready w = false ->
    let '(acts, clients, code) := server_main w accepts in
    code = Some EXIT_FAILURE
    /\ clients = []
    /\ spawned acts = []
    /\ cleanups (io_of acts) = (if InitializeWinsock w then 1%nat else 0%nat)
    /\ closes (socket w) (io_of acts)
       = (if InitializeWinsock w && negb (socket w =? INVALID_SOCKET)
          then 1%nat else 0%nat).
Proof.
  intros w accepts. unfold server_ready, server_main.
  destruct (InitializeWinsock w); cbn [negb andb];
    [|intros _; repeat split; reflexivity].
  destruct (socket w =? INVALID_SOCKET) eqn:Es; cbn [negb andb];
    [intros _; repeat split; reflexivity|].
  destruct (bind w =? SOCKET_ERROR); cbn [negb andb].
  - intros _. unfold closes, cleanups. cbn. rewrite Z.eqb_refl.
    repeat split; reflexivity.
  - destruct (listen w =? SOCKET_ERROR); cbn [negb]; [|discriminate].
    intros _. unfold closes, cleanups. cbn. rewrite Z.eqb_refl.
    repeat split; reflexivity.
Qed.

Lemma server_main_startup_failure_witness :
  server_ready bind_fails = false
  /\ snd (server_main bind_fails [(4, 0)]) = Some EXIT_FAILURE.
Proof.
  split; [reflexivity|].
  pose proof (server_main_startup_failure bind_fails [(4, 0)] eq_refl) as H.
  destruct (server_main bind_fails [(4, 0)]) as [[acts clients] code].
  exact (proj1 H).
Defined.

(** X12. When the start-up succeeds, the server's [main] never returns: it
    goes on accepting. Its registry then holds the accepted handles,
    one handler thread has been started for each, and [main] itself closes
    no socket and does not shut the library down. *)
Theorem server_main_serves :
  forall w accepts,
    server_ready w = true ->
    let '(acts, clients, code) := server_main w accepts in
    code = None
    /\ clients = valid_handles accepts
    /\ spawned acts = valid_handles accepts
    /\ cleanups (io_of acts) = 0%nat
    /\ forall s, closes s (io_of acts) = 0%nat.
Proof.
  intros w accepts. unfold server_ready, server_main.
  destruct (InitializeWinsock w); cbn [negb andb]; [|discriminate].
  destruct (socket w =? INVALID_SOCKET); cbn [negb andb]; [discriminate|].
  destruct (bind w =? SOCKET_ERROR); cbn [negb andb]; [discriminate|].
  destruct (listen w =? SOCKET_ERROR); cbn [negb]; [discriminate|].
  intros _.
  destruct (accept_loop_spec accepts []) as (H1 & H2 & _).
  pose proof (accept_loop_io accepts []) as H3.
  destruct (accept_loop [] accepts) as [acts clients].
  cbn [fst snd app] in *.
  split; [reflexivity|]. split; [exact H1|]. split; [exact H2|].
  assert (H4 : forall s,
             closes s (io_of acts) = 0%nat /\ cleanups (io_of acts) = 0%nat)
    by (intros s; apply loop_event_no_release, H3).
  split.
  - apply (H4 0).
  - intros s. apply (H4 s).
Qed.

Lemma server_main_serves_witness :
  server_ready all_fine = true
  /\ snd (fst (server_main all_fine [(4, 0); (INVALID_SOCKET, 10054); (5, 0)]))
     = [4; 5].
Proof.
  split; [reflexivity|].
  pose proof (server_main_serves all_fine
                [(4, 0); (INVALID_SOCKET, 10054); (5, 0)] eq_refl) as H.
  destruct (server_main all_fine _) as [[acts clients] code].
  exact (proj1 (proj2 H)).
Defined.

(** ** Further properties: the client *)

Lemma skip_ws_head (line : text) (c : ascii) (r : text) :
  skip_ws line = c :: r -> isspace c = false.
Proof.
  induction line as [|d line IH]; simpl; [discriminate|].
  destruct (isspace d) eqn:E; [exact IH|].
  intros [= <- _]. exact E.
Qed.

(** X13. The chat name the client settles on is never empty and never
    begins with white space: it is the first line that is not blank, with
    its leading white space removed; the blank lines before it are skipped.
    When every line is blank, no name is ever read. *)
Theorem read_name_takes_first_nonblank_line :
  forall stdin,
    match read_name stdin with
    | Some (name, rest) =>
        (exists blanks line,
            stdin = blanks ++ line :: rest
            /\ Forall blank blanks
            /\ name = skip_ws line)
        /\ exists c r, name = c :: r /\ isspace c = false
    | None => Forall blank stdin
    end.
Proof.
  induction stdin as [|line stdin IH]; cbn [read_name]; [constructor|].
  destruct (skip_ws line) as [|c r] eqn:E.
  - destruct (read_name stdin) as [[name rest]|].
    + destruct IH as [(blanks & l & -> & Hb & ->) Hc]. split; [|exact Hc].
      exists (line :: blanks), l. repeat split. constructor; assumption.
    + constructor; assumption.
  - split.
    + exists [], line. repeat split; [constructor | symmetry; exact E].
    + exists c, r. split; [reflexivity | apply (skip_ws_head line c r E)].
Qed.

Lemma send_loop_all_sent net s name stdin :
  (forall p, send net s p <> SOCKET_ERROR) ->
  sent_to s (fst (send_loop net s name stdin))
  = map (says name) (typed_lines stdin)
  /\ snd (send_loop net s name stdin)
     = (if has_stop stdin then Exited else Running)
  /\ Forall loop_event (fst (send_loop net s name stdin)).
Proof.
  intros Hnet. unfold has_stop.
  induction stdin as [|message stdin (IH1 & IH2 & IH3)];
    cbn [send_loop typed_lines existsb].
  - repeat split. repeat constructor.
  - destruct (empty message) eqn:Ee.
    + assert (Hs : is_stop message = false)
        by (destruct message; [reflexivity | discriminate]).
      rewrite Hs. cbn [orb].
      destruct (send_loop net s name stdin). cbn [fst snd sent_to] in *.
      repeat split; try assumption. constructor; [exact I | assumption].
    + fold (says name message). fold (is_stop message).
      pose proof (Hnet (says name message)) as Hok.
      apply Z.eqb_neq in Hok. rewrite Hok.
      destruct (is_stop message); cbn [orb].
      * cbn [fst snd sent_to map]. rewrite Z.eqb_refl.
        repeat split. repeat constructor.
      * destruct (send_loop net s name stdin). cbn [fst snd sent_to map] in *.
        rewrite Z.eqb_refl, IH1. repeat split; try assumption.
        repeat (constructor; [exact I|]). assumption.
Qed.

Lemma quiet_never_fails (s : SOCKET) (p : text) : send quiet s p <> SOCKET_ERROR.
Proof. unfold send, quiet, SOCKET_ERROR. lia. Qed.

(** X16. On a connection where every write fails, the client tries the
    first non-empty line, reports the error and leaves its loop: it writes
    one line and no more, and without a non-empty line it never leaves. *)
Theorem send_loop_leaves_on_failed_write :
  forall net s name stdin,
    (forall p, send net s p = SOCKET_ERROR) ->
    sent_to s (fst (send_loop net s name stdin))
    = firstn 1 (map (says name) (filter (fun m => negb (empty m)) stdin))
    /\ snd (send_loop net s name stdin)
       = (if forallb empty stdin then Running else Exited)
    /\ (forallb empty stdin = false ->
        In (EvCerr (nl :: lit "Error sending message."))
           (fst (send_loop net s name stdin))).
Proof.
  intros net s name stdin Hnet.
  induction stdin as [|message stdin (IH1 & IH2 & IH3)];
    cbn [send_loop filter forallb].
  - repeat split. discriminate.
  - destruct (empty message); cbn [negb andb].
    + destruct (send_loop net s name stdin). cbn [fst snd sent_to] in *.
      repeat split; try assumption. intros H. right. apply IH3, H.
    + fold (says name message). rewrite Hnet. rewrite Z.eqb_refl.
      cbn [fst snd sent_to map firstn]. rewrite Z.eqb_refl.
      repeat split. intros _. right. right. left. reflexivity.
Qed.

Lemma send_loop_leaves_on_failed_write_witness :
  sent_to 9 (fst (send_loop dead 9 (lit "Al") [[]; lit "hi"; lit "more"]))
  = [says (lit "Al") (lit "hi")]
  /\ snd (send_loop dead 9 (lit "Al") [[]; lit "hi"; lit "more"]) = Exited.
Proof.
  pose proof (send_loop_leaves_on_failed_write dead 9 (lit "Al")
                [[]; lit "hi"; lit "more"] (fun p => eq_refl)) as (H1 & H2 & _).
  split; [exact H1 | exact H2].
Defined.

Lemma sendMesg_spec net s stdin :
  (forall p, send net s p <> SOCKET_ERROR) ->
  let '(tr, st) := sendMesg net s stdin in
  match read_name stdin with
  | None => sent_to s tr = [] /\ st = Running
            /\ closes s tr = 0%nat /\ cleanups tr = 0%nat
  | Some (name, rest) =>
      sent_to s tr = (connectPrefix ++ name) :: map (says name) (typed_lines rest)
      /\ st = (if has_stop rest then Exited else Running)
      /\ closes s tr = (if has_stop rest then 1%nat else 0%nat)
      /\ cleanups tr = (if has_stop rest then 1%nat else 0%nat)
  end.
Proof.
  intros Hnet. unfold sendMesg.
  destruct (read_name stdin) as [[name rest]|]; [|repeat split].
  destruct (send_loop_all_sent net s name rest Hnet) as (H1 & H2 & H3).
  destruct (send_loop net s name rest) as [evs st]. cbn [fst snd] in *.
  destruct (loop_event_no_release evs s H3) as [Hc Hw].
  subst st. destruct (has_stop rest).
  - cbn [app sent_to]. rewrite Z.eqb_refl, sent_to_app, H1.
    cbn [sent_to]. rewrite app_nil_r.
    unfold closes, cleanups in *. cbn [filter]. rewrite !filter_app, !length_app.
    cbn [filter length]. rewrite Z.eqb_refl. cbn [length].
    rewrite Hc, Hw. repeat split.
  - cbn [sent_to]. rewrite Z.eqb_refl, H1.
    unfold closes, cleanups in *. cbn [filter]. rewrite Hc, Hw. repeat split.
Qed.

Lemma recvMesg_loop_spec (script : list recv_outcome) :
  forall buffer,
    Z.of_nat (length buffer) = sizeof_buffer ->
    recvMesg_loop buffer script
    = (shown (data_prefix script)
         ++ (if forallb keeps_reading script then []
             else [EvCout (nl :: lit "Disconnected from server.")]),
       if forallb keeps_reading script then Running else Exited).
Proof.
  induction script as [|o script IH]; intros buffer Hb; [reflexivity|].
  destruct (keeps_reading o) eqn:Hk.
  - destruct (keeps_reading_Data o Hk) as (bs & -> & Hne).
    destruct (read_Data bs buffer Hb Hne) as (b' & Hr & Hp & Hs & Hb' & Hc).
    cbn [recvMesg_loop]. rewrite Hr, Hp, Hs, Hc, (IH b' Hb').
    destruct bs as [|b bs]; [discriminate|].
    cbn [data_prefix forallb keeps_reading andb shown flat_map app].
    reflexivity.
  - pose proof (not_keeps_reading_stop o buffer Hk) as Hstop.
    cbn [recvMesg_loop forallb]. rewrite Hk. cbn [andb].
    destruct (recv o buffer (sizeof_buffer - 1)) as [n b]. cbn [fst] in Hstop.
    apply Z.leb_le in Hstop. rewrite Hstop.
    destruct o as [[|b0 bs]| |]; try discriminate; reflexivity.
Qed.

(** ** Further properties: start-up of the client *)

(** X19. When a step of the client's start-up fails, [main] returns 1
    without starting a thread, and it has released exactly what it had
    acquired: the library is shut down once if it had been started, the
    socket closed once if it had been created. *)
Theorem client_main_startup_failure :
  forall w net stdin buffer script,
    client_ready w = false ->
    let '(tr, threads, code) := client_main w net stdin buffer script in
    code = Some 1
    /\ threads = None
    /\ sends tr = []
    /\ cleanups tr = (if InitializeWinsock w then 1%nat else 0%nat)
    /\ closes (socket w) tr
       = (if InitializeWinsock w && negb (socket w =? INVALID_SOCKET)
          then 1%nat else 0%nat).
Proof.
  intros w net stdin buffer script. unfold client_ready, client_main.
  destruct (InitializeWinsock w); cbn [negb andb];
    [|intros _; repeat split; reflexivity].
  destruct (socket w =? INVALID_SOCKET) eqn:Es; cbn [negb andb];
    [intros _; repeat split; reflexivity|].
  destruct (connect w =? SOCKET_ERROR); cbn [negb]; [|discriminate].
  intros _. unfold closes, cleanups. cbn. rewrite Z.eqb_refl.
  repeat split; reflexivity.
Qed.

Lemma client_main_startup_failure_witness :
  client_ready connect_fails = false
  /\ snd (client_main connect_fails quiet [lit "Al"] zero_buffer [Eof]) = Some 1.
Proof.
  split; [reflexivity|].
  pose proof (client_main_startup_failure connect_fails quiet [lit "Al"]
                zero_buffer [Eof] eq_refl) as H.
  destruct (client_main connect_fails quiet [lit "Al"] zero_buffer [Eof])
    as [[tr threads] code].
  exact (proj1 H).
Defined.

(** X20. Once connected, the client's [main] returns, with status 0,
    exactly when both its threads have left their loops: the user has
    typed a name and then [quit] or [exit], and a read has come back
    without data. By then each of the two threads has closed the same
    socket and shut the library down, so both have happened twice. *)
Theorem client_main_returns_after_both_threads :
  forall w net stdin buffer script,
    client_ready w = true ->
    (forall p, send net (socket w) p <> SOCKET_ERROR) ->
    Z.of_nat (length buffer) = sizeof_buffer ->
    let '(tr, threads, code) := client_main w net stdin buffer script in
    let left := match read_name stdin with
                | Some (_, rest) => has_stop rest
                | None => false
                end && negb (forallb keeps_reading script) in
    threads = Some (sendMesg net (socket w) stdin,
                    recvMesg (socket w) buffer script)
    /\ code = (if left then Some 0 else None)
    /\ (left = true ->
        (closes (socket w) (fst (sendMesg net (socket w) stdin))
         + closes (socket w) (fst (recvMesg (socket w) buffer script)) = 2)%nat
        /\ (cleanups (fst (sendMesg net (socket w) stdin))
            + cleanups (fst (recvMesg (socket w) buffer script)) = 2)%nat).
Proof.
  intros w net stdin buffer script. unfold client_ready, client_main.
  destruct (InitializeWinsock w); cbn [negb andb]; [|discriminate].
  destruct (socket w =? INVALID_SOCKET); cbn [negb andb]; [discriminate|].
  destruct (connect w =? SOCKET_ERROR); cbn [negb]; [discriminate|].
  intros _ Hnet Hb.
  pose proof (sendMesg_spec net (socket w) stdin Hnet) as Hs.
  pose proof (recvMesg_loop_spec script buffer Hb) as Hr.
  pose proof (Forall_nil loop_event) as Hnil.
  unfold recvMesg. rewrite Hr. clear Hr.
  assert (Hshown : forall reads, Forall loop_event (shown reads)).
  { induction reads; cbn; repeat constructor. assumption. }
  destruct (loop_event_no_release _ (socket w) (Hshown (data_prefix script)))
    as [Hc Hw].
  destruct (sendMesg net (socket w) stdin) as [str sst].
  split; [reflexivity|].
  destruct (read_name stdin) as [[name rest]|].
  - destruct Hs as (_ & -> & Hsc & Hsw). cbn [fst snd].
    destruct (has_stop rest), (forallb keeps_reading script);
      cbn [negb andb snd fst]; (split; [reflexivity|]); try discriminate.
    intros _. rewrite Hsc, Hsw, !closes_app, !cleanups_app, Hc, Hw.
    unfold closes, cleanups. cbn [filter length]. rewrite Z.eqb_refl.
    split; reflexivity.
  - destruct Hs as (_ & -> & _). cbn [fst snd andb].
    split; [reflexivity | discriminate].
Qed.

Lemma client_main_returns_after_both_threads_witness :
  client_ready all_fine = true
  /\ snd (client_main all_fine quiet [lit "Al"; lit "quit"] zero_buffer [Eof])
     = Some 0.
Proof.
  split; [reflexivity|].
  pose proof (client_main_returns_after_both_threads all_fine quiet
                [lit "Al"; lit "quit"] zero_buffer [Eof] eq_refl
                (quiet_never_fails _) zero_buffer_length) as H.
  destruct (client_main all_fine quiet [lit "Al"; lit "quit"] zero_buffer [Eof])
    as [[tr threads] code].
  exact (proj1 (proj2 H)).
Defined.

(** ** What the client writes is chat for the server *)

Lemma plain_says (name m : text) :
  ~ In NUL name ->
  compare_eq0 name 0 (length connectPrefix) connectPrefix = false ->
  ~ In NUL m ->
  (length (says name m) <= max_payload)%nat ->
  plain (says name m).
Proof.
  intros Hname Hcmp Hm Hlen. unfold plain, says. repeat split.
  - destruct name; discriminate.
  - intros H. apply in_app_or in H as [H|H]; [exact (Hname H)|].
    apply in_app_or in H as [H|H]; [|exact (Hm H)].
    revert H. unfold NUL. not_in_literal.
  - exact Hlen.
  - apply (compare_eq0_name name _ Hcmp).
Qed.

(** ** Further properties: the registry under a handler *)

Lemma in_remove_client_iff (v : list SOCKET) (x k : SOCKET) :
  NoDup v -> (In k (remove_client v x) <-> In k v /\ k <> x).
Proof.
  intros Hnd. split.
  - intros H. split; [eapply in_remove_client, H|].
    intros ->. exact (remove_client_gone v x Hnd H).
  - intros [H Hne]. apply remove_client_keeps; assumption.
Qed.

(** X22. A handler thread keeps the registry in order: if no handle was in
    it twice, none is afterwards, and the registry it leaves holds the
    handles it found, all but its own once it has left its loop. *)
Theorem HandleClient_keeps_registry_invariant :
  forall net clientSocket clients script,
    NoDup clients ->
    let registry := snd (fst (HandleClient net clientSocket clients script)) in
    NoDup registry
    /\ forall k, In k registry
                 <-> In k clients
                     /\ (k = clientSocket ->
                         forallb keeps_reading script = true).
Proof.
  intros net clientSocket clients script Hnd registry. unfold registry.
  rewrite HandleClient_registry_after.
  destruct (forallb keeps_reading script).
  - split; [assumption|]. intros k. tauto.
  - split; [apply remove_client_NoDup, Hnd|]. intros k.
    rewrite (in_remove_client_iff clients clientSocket k Hnd).
    split; intros [H1 H2]; (split; [exact H1|]).
    + intros ->. contradiction.
    + intros ->. specialize (H2 eq_refl). discriminate.
Qed.

Lemma HandleClient_keeps_registry_invariant_witness :
  NoDup [1; 2; 3]
  /\ NoDup (snd (fst (HandleClient quiet 2 [1; 2; 3]
                        [Data (lit "hello"); Eof]))).
Proof.
  split; [exact NoDup_123|].
  exact (proj1 (HandleClient_keeps_registry_invariant quiet 2 [1; 2; 3]
                  [Data (lit "hello"); Eof] NoDup_123)).
Defined.

(** ** The reads of both loops *)

(** One read, as both loops make it: the count and the terminator. *)
Lemma read_bounds (o : recv_outcome) (buffer : list ascii) :
  Z.of_nat (length buffer) = sizeof_buffer ->
  let bytesReceived := fst (recv o buffer (sizeof_buffer - 1)) in
  let buffer1 := snd (recv o buffer (sizeof_buffer - 1)) in
  bytesReceived <= 4095
  /\ (0 <= bytesReceived ->
      0 <= bytesReceived < sizeof_buffer
      /\ exists buffer2,
          store buffer1 bytesReceived NUL = Some buffer2
          /\ Z.of_nat (length buffer2) = sizeof_buffer
          /\ (length (c_str buffer2) <= 4095)%nat).
Proof.
  intros Hlen n buffer1.
  assert (Hn : n <= 4095).
  { unfold n. apply (recv_count o buffer (sizeof_buffer - 1)).
    unfold sizeof_buffer. lia. }
  assert (Hl1 : length buffer1 = length buffer).
  { unfold buffer1. apply recv_length. unfold sizeof_buffer in *. lia. }
  split; [assumption|]. intros Hpos.
  assert (Hin : 0 <= n < sizeof_buffer) by (unfold sizeof_buffer; lia).
  split; [assumption|].
  eexists. split; [apply store_in_bounds; lia|].
  split; [rewrite length_update; lia|].
  rewrite c_str_app_NUL.
  etransitivity; [apply length_c_str|].
  rewrite length_firstn. unfold sizeof_buffer in *. lia.
Qed.

Lemma length_message (bs : list ascii) :
  (length (c_str (firstn max_payload bs)) <= 4095)%nat.
Proof.
  etransitivity; [apply length_c_str|].
  etransitivity; [apply firstn_le_length|]. apply Nat.leb_le. reflexivity.
Qed.

(** Whatever a turn writes is as long as the message it read: a chat
    message goes out as it is, and a notice trades the eleven characters of
    the marker for the eleven of [" connected."]. *)
Lemma handle_message_payload net clientSocket clients clientName message h p :
  In (h, p) (sends (snd (handle_message net clientSocket clients clientName
                                        message))) ->
  length p = length message.
Proof.
  rewrite sends_handle_message. intros H. apply in_fanout in H as (_ & _ & ->).
  destruct (compare_eq0 message 0 (length connectPrefix) connectPrefix) eqn:E;
    [|reflexivity].
  pose proof (compare_eq0_length message connectPrefix E) as Hlen.
  unfold substr. rewrite length_app, length_skipn.
  change (length (lit " connected.")) with (length connectPrefix).
  apply Nat.sub_add, Hlen.
Qed.

Lemma recv_loop_payloads net clientSocket clients script :
  forall buffer clientName h p,
    Z.of_nat (length buffer) = sizeof_buffer ->
    In (h, p)
       (sends (fst (recv_loop net clientSocket clients buffer clientName
                              script))) ->
    (length p <= 4095)%nat.
Proof.
  induction script as [|o script IH]; intros buffer clientName h p Hb Hin.
  - contradiction.
  - destruct (keeps_reading o) eqn:Hk.
    + destruct (recv_loop_go net clientSocket clients buffer clientName o
                  Hb Hk) as (bs & b' & _ & Hb' & E).
      rewrite E in Hin. clear E.
      pose proof (handle_message_payload net clientSocket clients clientName
                    (c_str (firstn max_payload bs)) h p) as Hs.
      destruct (handle_message _ _ _ _ _) as [n' evs]. cbn [snd] in Hs.
      specialize (IH b' n' h p Hb').
      destruct (recv_loop net clientSocket clients b' n' script) as [evs' st].
      cbn [fst] in *. rewrite sends_app in Hin.
      apply in_app_or in Hin as [Hin|Hin]; [|auto].
      rewrite (Hs Hin). apply length_message.
    + rewrite recv_loop_stop in Hin by (apply not_keeps_reading_stop, Hk).
      contradiction.
Qed.

Lemma recvMesg_loop_lines (script : list recv_outcome) :
  forall buffer line,
    Z.of_nat (length buffer) = sizeof_buffer ->
    In (EvCout line) (fst (recvMesg_loop buffer script)) ->
    (length line <= 4096)%nat.
Proof.
  intros buffer line Hb. rewrite (recvMesg_loop_spec script buffer Hb).
  cbn [fst]. intros H. apply in_app_or in H as [H|H].
  - unfold shown in H. apply in_flat_map in H as (bs & _ & [H|[H|[]]]).
    + injection H as <-. cbn [length].
      apply (le_n_S _ 4095), length_message.
    + injection H as <-. apply Nat.leb_le. reflexivity.
  - destruct (forallb keeps_reading script); [contradiction|].
    destruct H as [H|[]]. injection H as <-. apply Nat.leb_le. reflexivity.
Qed.

(** C8. Both loops ask [recv] for [sizeof(buffer) - 1] bytes. A read
    therefore yields at most 4095 bytes, and for every count that is not
    negative the terminator goes to an index inside the 4096-byte buffer.
    So, whatever arrives and in whatever pieces, neither the server's loop
    nor the client's ever stores outside its buffer, no payload the server
    writes is longer than 4095 bytes, and no line the client prints is
    longer than that plus its leading newline. *)
Theorem read_within_buffer :
  forall net clientSocket clients clientName buffer script,
    Z.of_nat (length buffer) = sizeof_buffer ->
    (forall o,
        let bytesReceived := fst (recv o buffer (sizeof_buffer - 1)) in
        let buffer1 := snd (recv o buffer (sizeof_buffer - 1)) in
        bytesReceived <= 4095
        /\ (0 <= bytesReceived ->
            0 <= bytesReceived < sizeof_buffer
            /\ exists buffer2,
                store buffer1 bytesReceived NUL = Some buffer2
                /\ Z.of_nat (length buffer2) = sizeof_buffer
                /\ (length (c_str buffer2) <= 4095)%nat))
    /\ snd (recv_loop net clientSocket clients buffer clientName script)
       <> Undefined
    /\ (forall h p,
           In (h, p)
              (sends (fst (recv_loop net clientSocket clients buffer
                                     clientName script))) ->
           (length p <= 4095)%nat)
    /\ snd (recvMesg_loop buffer script) <> Undefined
    /\ (forall line,
           In (EvCout line) (fst (recvMesg_loop buffer script)) ->
           (length line <= 4096)%nat).
Proof.
  intros net clientSocket clients clientName buffer script Hb.
  split; [intros o; apply read_bounds, Hb|].
  split; [apply recv_loop_defined, Hb|].
  split.
  - intros h p. apply recv_loop_payloads, Hb.
  - split; [apply recvMesg_loop_defined, Hb|].
    intros line. apply recvMesg_loop_lines, Hb.
Qed.

Lemma read_within_buffer_witness :
  Z.of_nat (length zero_buffer) = sizeof_buffer
  /\ snd (recv_loop quiet 1 [1; 2] zero_buffer (lit "Bob")
                    [Data (repeat "a"%char 5000); Data (lit "hi"); Eof])
     <> Undefined
  /\ snd (recvMesg_loop zero_buffer
                        [Data (repeat "a"%char 5000); Data (lit "hi"); Eof])
     <> Undefined.
Proof.
  pose proof (read_within_buffer quiet 1 [1; 2] (lit "Bob") zero_buffer
                [Data (repeat "a"%char 5000); Data (lit "hi"); Eof]
                zero_buffer_length) as (_ & Hs & _ & Hc & _).
  split; [apply zero_buffer_length|]. split; [exact Hs | exact Hc].
Defined.

(** ** The last line of a client *)


(** ** Further properties: the handler beside the other threads *)

Lemma recv_loop_shared_go net clientSocket clients buffer clientName o :
  Z.of_nat (length buffer) = sizeof_buffer ->
  keeps_reading o = true ->
  exists bs buffer',
    o = Data bs
    /\ Z.of_nat (length buffer') = sizeof_buffer
    /\ forall turns,
        recv_loop_shared net clientSocket buffer clientName
                         ((clients, o) :: turns)
        = (let '(clientName', evs) :=
             handle_message net clientSocket clients clientName
                            (c_str (firstn max_payload bs)) in
           let '(evs', st, found) :=
             recv_loop_shared net clientSocket buffer' clientName' turns in
           (evs ++ evs', st, found)).
Proof.
  intros Hb Hk. destruct (keeps_reading_Data o Hk) as (bs & -> & Hne).
  destruct (read_Data bs buffer Hb Hne) as (b' & Hrecv & Hpos & Hst & Hl & Hc).
  exists bs, b'. split; [reflexivity|]. split; [assumption|].
  intros turns. cbn [recv_loop_shared]. rewrite Hrecv, Hpos, Hst, Hc.
  reflexivity.
Qed.

Lemma recv_loop_shared_stop net clientSocket clients buffer clientName o turns :
  keeps_reading o = false ->
  recv_loop_shared net clientSocket buffer clientName ((clients, o) :: turns)
  = ([EvCout (clientName ++ lit " disconnected.")], Exited, clients).
Proof.
  intros Hk. pose proof (not_keeps_reading_stop o buffer Hk) as H.
  cbn [recv_loop_shared].
  destruct (recv o buffer (sizeof_buffer - 1)) as [n b]. cbn [fst] in H.
  apply Z.leb_le in H. rewrite H. reflexivity.
Qed.

Lemma recv_loop_shared_buffer net clientSocket turns :
  forall buffer1 buffer2 clientName,
    Z.of_nat (length buffer1) = sizeof_buffer ->
    Z.of_nat (length buffer2) = sizeof_buffer ->
    recv_loop_shared net clientSocket buffer1 clientName turns
    = recv_loop_shared net clientSocket buffer2 clientName turns.
Proof.
  induction turns as [|[clients o] turns IH]; intros b1 b2 clientName H1 H2.
  - reflexivity.
  - destruct (keeps_reading o) eqn:Hk.
    + destruct (recv_loop_shared_go net clientSocket clients b1 clientName o
                  H1 Hk) as (bs & b1' & Ho & Hb1 & E1).
      destruct (recv_loop_shared_go net clientSocket clients b2 clientName o
                  H2 Hk) as (bs' & b2' & Ho' & Hb2 & E2).
      rewrite E1, E2. rewrite Ho in Ho'. injection Ho' as <-.
      destruct (handle_message _ _ _ _ _) as [n' evs].
      rewrite (IH b1' b2' n' Hb1 Hb2). reflexivity.
    + rewrite !recv_loop_shared_stop by exact Hk. reflexivity.
Qed.

(** A handler that no other thread disturbs is the handler of the claims. *)
Lemma recv_loop_shared_undisturbed net clientSocket clients script :
  forall buffer clientName,
    fst (recv_loop_shared net clientSocket buffer clientName
                          (undisturbed clients script))
    = recv_loop net clientSocket clients buffer clientName script.
Proof.
  induction script as [|o script IH]; intros buffer clientName;
    [reflexivity|].
  cbn [undisturbed map recv_loop_shared recv_loop].
  destruct (recv o buffer (sizeof_buffer - 1)) as [n b].
  destruct (n <=? 0); [reflexivity|].
  destruct (store b n NUL) as [b'|]; [|reflexivity].
  destruct (handle_message _ _ _ _ _) as [n' evs].
  specialize (IH b' n'). fold (undisturbed clients script).
  destruct (recv_loop_shared net clientSocket b' n'
              (undisturbed clients script)) as [[evs1 st1] found].
  cbn [fst] in IH. rewrite <- IH. reflexivity.
Qed.




(** X6. The message of a read is what comes before its first NUL byte: a
    read of at most 4095 bytes, as [recv] returns them, whose part before
    the first NUL is not empty is handled exactly like a read of that part
    alone. The bytes behind the NUL are relayed to no one, in that turn or
    later. *)
Theorem read_is_cut_at_NUL :
  forall net clientSocket clients buffer clientName bs turns,
    Z.of_nat (length buffer) = sizeof_buffer ->
    (length bs <= max_payload)%nat ->
    c_str bs <> [] ->
    recv_loop_shared net clientSocket buffer clientName
                     ((clients, Data bs) :: turns)
    = recv_loop_shared net clientSocket buffer clientName
                       ((clients, Data (c_str bs)) :: turns).
Proof.
  intros net clientSocket clients buffer clientName bs turns Hb Hfit Hne.
  assert (Hbs : keeps_reading (Data bs) = true).
  { apply nonempty_keeps_reading. intros ->. apply Hne. reflexivity. }
  assert (Hm : keeps_reading (Data (c_str bs)) = true)
    by (apply nonempty_keeps_reading, Hne).
  destruct (recv_loop_shared_go net clientSocket clients buffer clientName _
              Hb Hbs) as (bs1 & b1 & E1 & Hb1 & R1).
  destruct (recv_loop_shared_go net clientSocket clients buffer clientName _
              Hb Hm) as (bs2 & b2 & E2 & Hb2 & R2).
  injection E1 as <-. injection E2 as <-. rewrite R1, R2.
  rewrite (firstn_max_payload_short bs Hfit).
  rewrite (firstn_max_payload_short (c_str bs))
    by (etransitivity; [apply length_c_str | exact Hfit]).
  rewrite c_str_idempotent. clear R1 R2.
  destruct (handle_message net clientSocket clients clientName (c_str bs))
    as [n' evs].
  rewrite (recv_loop_shared_buffer net clientSocket turns b1 b2 n' Hb1 Hb2).
  reflexivity.
Qed.

Lemma read_is_cut_at_NUL_witness :
  recv_loop_shared quiet 1 zero_buffer (lit "Bob")
                   [([1; 2], Data (lit "seen" ++ NUL :: lit "hidden"))]
  = recv_loop_shared quiet 1 zero_buffer (lit "Bob")
                     [([1; 2], Data (c_str (lit "seen" ++ NUL :: lit "hidden")))].
Proof.
  apply read_is_cut_at_NUL.
  - apply zero_buffer_length.
  - apply Nat.leb_le. vm_compute. reflexivity.
  - vm_compute. discriminate.
Defined.

Lemma recv_loop_shared_chat net clientSocket chats rest :
  Forall (fun cm => plain (snd cm)) chats ->
  forall buffer clientName,
    Z.of_nat (length buffer) = sizeof_buffer ->
    recv_loop_shared net clientSocket buffer clientName (reads_of chats ++ rest)
    = (chat_turns net clientSocket clientName chats
         ++ fst (fst (recv_loop_shared net clientSocket buffer clientName rest)),
       snd (fst (recv_loop_shared net clientSocket buffer clientName rest)),
       snd (recv_loop_shared net clientSocket buffer clientName rest)).
Proof.
  induction 1 as [|[c m] chats Hm _ IH]; intros buffer clientName Hb.
  - cbn [reads_of map app chat_turns flat_map].
    destruct (recv_loop_shared _ _ _ _ _) as [[evs st] found]. reflexivity.
  - cbn [snd] in Hm. destruct (plain_read m Hm) as [Hk Hc].
    cbn [reads_of map app fst snd]. fold (reads_of chats).
    destruct (recv_loop_shared_go net clientSocket c buffer clientName
                (Data m) Hb Hk) as (bs & b' & E & Hb' & R).
    injection E as <-. rewrite R, Hc. clear R. unfold handle_message.
    destruct Hm as (_ & _ & _ & ->). cbv beta iota zeta.
    rewrite (IH b' clientName Hb').
    rewrite (recv_loop_shared_buffer net clientSocket rest b' buffer
               clientName Hb' Hb).
    unfold chat_turns. cbn [flat_map fst snd].
    rewrite <- !app_assoc. reflexivity.
Qed.

Lemma HandleClient_shared_session net clientSocket N c0 chats c_end :
  ~ In NUL N ->
  (length (connectPrefix ++ N) <= max_payload)%nat ->
  Forall (fun cm => plain (snd cm)) chats ->
  HandleClient_shared net clientSocket
                      ((c0, Data (connectPrefix ++ N))
                         :: reads_of chats ++ [(c_end, Eof)])
  = (EvCout (N ++ lit " connected.")
       :: broadcast net c0 clientSocket (N ++ lit " connected.")
       ++ chat_turns net clientSocket N chats
       ++ [EvCout (N ++ lit " disconnected."); EvCloseSocket clientSocket],
     Some (remove_client c_end clientSocket), Exited).
Proof.
  intros HN Hlen Hchats. unfold HandleClient_shared.
  assert (Hk : keeps_reading (Data (connectPrefix ++ N)) = true) by reflexivity.
  remember (connectPrefix ++ N) as ann eqn:Hann.
  destruct (recv_loop_shared_go net clientSocket c0 zero_buffer
              (lit "Unknown") _ zero_buffer_length Hk)
    as (bs & b' & E & Hb' & R).
  injection E as <-. rewrite R. clear R. subst ann.
  rewrite firstn_max_payload_short by exact Hlen.
  rewrite c_str_no_NUL.
  2:{ intros H. apply in_app_or in H as [H|H];
      [apply connectPrefix_no_NUL, H | apply HN, H]. }
  unfold handle_message. rewrite compare_eq0_app, substr_app.
  cbv beta iota zeta.
  rewrite (recv_loop_shared_chat net clientSocket chats [(c_end, Eof)] Hchats
             b' N Hb').
  rewrite recv_loop_shared_stop by reflexivity. cbn [fst snd].
  f_equal. f_equal. cbn [app]. f_equal.
  rewrite <- !app_assoc. reflexivity.
Qed.



Lemma sends_chat_turns net clientSocket clientName chats :
  sends (chat_turns net clientSocket clientName chats)
  = flat_map (fun cm => fanout (fst cm) clientSocket (snd cm)) chats.
Proof.
  unfold chat_turns, fanout.
  induction chats as [|cm chats IH]; cbn [flat_map]; [reflexivity|].
  cbn [app sends]. rewrite sends_app, sends_broadcast, IH. reflexivity.
Qed.



(** ** Further properties: the client's loops, where the input holds a
    [quit] or [exit] and the reads fit the buffer *)




(** X15. On a connection where no write fails, the client leaves its loop
    exactly when [quit] or [exit] is typed, and never when the input ends
    without one. When it is typed, the client has by then sent every
    non-empty line up to and with it, each once, as ["<name> : <line>"]. *)
Theorem send_loop_without_failures :
  forall net s name stdin,
    (forall p, send net s p <> SOCKET_ERROR) ->
    snd (send_loop net s name stdin)
    = (if has_stop stdin then Exited else Running)
    /\ (has_stop stdin = true ->
        sent_to s (fst (send_loop net s name stdin))
        = map (says name) (typed_lines stdin)).
Proof.
  intros net s name stdin Hnet.
  destruct (send_loop_all_sent net s name stdin Hnet) as (H1 & H2 & _). auto.
Qed.

Lemma send_loop_without_failures_witness :
  sent_to 9 (fst (send_loop quiet 9 (lit "Al")
                            [lit "hi"; []; lit "quit"; lit "late"]))
  = map (says (lit "Al")) (typed_lines [lit "hi"; []; lit "quit"; lit "late"]).
Proof.
  exact (proj2 (send_loop_without_failures quiet 9 (lit "Al")
                  [lit "hi"; []; lit "quit"; lit "late"]
                  (quiet_never_fails 9)) eq_refl).
Defined.

(** X17. A run of [sendMesg] on a connection where no write fails. Without
    a name nothing is written and nothing released. With a name, the first
    write is its announcement; the thread leaves, closes the socket and
    shuts the library down, each once, exactly when [quit] or [exit] is
    typed, and releases nothing while the loop goes on; and when it is
    typed, the writes are the announcement and then the non-empty lines up
    to and with it, under that name. *)
Theorem sendMesg_announces_then_chats :
  forall net s stdin,
    (forall p, send net s p <> SOCKET_ERROR) ->
    let '(tr, st) := sendMesg net s stdin in
    match read_name stdin with
    | None => sent_to s tr = [] /\ st = Running
              /\ closes s tr = 0%nat /\ cleanups tr = 0%nat
    | Some (name, rest) =>
        hd_error (sent_to s tr) = Some (connectPrefix ++ name)
        /\ st = (if has_stop rest then Exited else Running)
        /\ closes s tr = (if has_stop rest then 1%nat else 0%nat)
        /\ cleanups tr = (if has_stop rest then 1%nat else 0%nat)
        /\ (has_stop rest = true ->
            sent_to s tr
            = (connectPrefix ++ name) :: map (says name) (typed_lines rest))
    end.
Proof.
  intros net s stdin Hnet.
  pose proof (sendMesg_spec net s stdin Hnet) as H.
  destruct (sendMesg net s stdin) as [tr st].
  destruct (read_name stdin) as [[name rest]|]; [|exact H].
  destruct H as (H1 & H2 & H3 & H4). rewrite H1.
  repeat split; assumption.
Qed.

Lemma sendMesg_announces_then_chats_witness :
  sent_to 9 (fst (sendMesg quiet 9 [lit "  "; lit " Al"; lit "hi"; lit "exit"]))
  = [lit "__CONNECT__Al"; lit "Al : hi"; lit "Al : exit"].
Proof.
  pose proof (sendMesg_announces_then_chats quiet 9
                [lit "  "; lit " Al"; lit "hi"; lit "exit"]
                (quiet_never_fails 9)) as H.
  destruct (sendMesg quiet 9 _) as [tr st].
  exact (proj2 (proj2 (proj2 (proj2 H))) eq_refl).
Defined.

Lemma shown_printed (script : list recv_outcome) :
  Forall fits script -> shown (data_prefix script) = printed (data_prefix script).
Proof.
  induction 1 as [|o script Ho _ IH]; [reflexivity|].
  destruct o as [[|b bs]| |]; try reflexivity.
  cbn [data_prefix shown printed flat_map]. fold (shown (data_prefix script)).
  fold (printed (data_prefix script)).
  rewrite (firstn_max_payload_short (b :: bs) Ho), IH. reflexivity.
Qed.

(** X18. The client's receiver only prints. For each read with data (of at
    most 4095 bytes, as [recv] returns them) it shows the text before the
    first NUL, then the prompt; at the first read without data it reports
    the disconnection, closes the socket and shuts the library down, and
    reads no more. It writes nothing to the server, whatever its buffer
    held at the start. *)
Theorem recvMesg_prints_until_disconnected :
  forall s buffer script,
    Z.of_nat (length buffer) = sizeof_buffer ->
    Forall fits script ->
    recvMesg s buffer script
    = (if forallb keeps_reading script
       then (printed (data_prefix script), Running)
       else (printed (data_prefix script)
               ++ [EvCout (nl :: lit "Disconnected from server.");
                   EvCloseSocket s; EvWSACleanup],
             Exited)).
Proof.
  intros s buffer script Hb Hfits. unfold recvMesg.
  rewrite (recvMesg_loop_spec script buffer Hb), (shown_printed script Hfits).
  destruct (forallb keeps_reading script).
  - rewrite app_nil_r. reflexivity.
  - rewrite <- app_assoc. reflexivity.
Qed.

Lemma fits_literal_script :
  Forall fits [Data (lit "Al : hi"); Eof; Data (lit "late")].
Proof.
  constructor; [apply Nat.leb_le; vm_compute; reflexivity|].
  constructor; [exact I|].
  constructor; [apply Nat.leb_le; vm_compute; reflexivity|].
  constructor.
Defined.

Lemma recvMesg_prints_until_disconnected_witness :
  recvMesg 9 zero_buffer [Data (lit "Al : hi"); Eof; Data (lit "late")]
  = (if forallb keeps_reading [Data (lit "Al : hi"); Eof; Data (lit "late")]
     then (printed (data_prefix [Data (lit "Al : hi"); Eof; Data (lit "late")]),
           Running)
     else (printed (data_prefix [Data (lit "Al : hi"); Eof; Data (lit "late")])
             ++ [EvCout (nl :: lit "Disconnected from server.");
                 EvCloseSocket 9; EvWSACleanup],
           Exited)).
Proof.
  apply recvMesg_prints_until_disconnected.
  - apply zero_buffer_length.
  - exact fits_literal_script.
Defined.

(** ** Further properties: client and server together *)

Lemma combine_reads (later : list (list SOCKET)) (msgs : list text) :
  forall c_end,
    length later = length msgs ->
    combine (later ++ [c_end]) (map Data msgs ++ [Eof])
    = reads_of (combine later msgs) ++ [(c_end, Eof)].
Proof.
  revert msgs. induction later as [|c later IH]; intros [|m msgs] c_end Hlen;
    try discriminate; [reflexivity|].
  cbn [app map combine reads_of fst snd]. fold (reads_of (combine later msgs)).
  rewrite IH by (injection Hlen as Hlen; exact Hlen). reflexivity.
Qed.

Lemma Forall_combine_snd (P : text -> Prop) (later : list (list SOCKET))
      (msgs : list text) :
  Forall P msgs -> Forall (fun cm => P (snd cm)) (combine later msgs).
Proof.
  intros H. apply Forall_forall. intros [c m] Hin. cbn [snd].
  apply in_combine_r in Hin. revert m Hin. apply Forall_forall, H.
Qed.

(** X21. Client and server together, beside the other threads. A user
    picks a chat name that neither begins with the marker nor holds a NUL
    byte, types lines without NUL bytes and at some point [quit] or [exit];
    no write fails, and each write reaches the server whole in a read of
    its own. Then the server writes ["<name> connected."] to the other
    handles registered when the announcement is read, and after that, in
    the order typed, ["<name> : <line>"] for each non-empty line up to and
    with the first [quit] or [exit], each to the other handles registered
    when that line is read, and nothing else; on the client's shutdown the
    handler erases its handle and leaves. *)
Theorem chat_session_end_to_end :
  forall net net' s stdin name rest clientSocket c0 later c_end,
    (forall p, send net s p <> SOCKET_ERROR) ->
    read_name stdin = Some (name, rest) ->
    has_stop rest = true ->
    ~ In NUL name ->
    compare_eq0 name 0 (length connectPrefix) connectPrefix = false ->
    (length (connectPrefix ++ name) <= max_payload)%nat ->
    Forall (fun m => ~ In NUL m
                     /\ (length (says name m) <= max_payload)%nat)
           (typed_lines rest) ->
    length later = length (typed_lines rest) ->
    let run := HandleClient_shared net' clientSocket
                 (combine (c0 :: later ++ [c_end])
                          (as_script s (fst (sendMesg net s stdin)))) in
    sends (fst (fst run))
    = fanout c0 clientSocket (name ++ lit " connected.")
        ++ flat_map (fun cm => fanout (fst cm) clientSocket (snd cm))
                    (combine later (map (says name) (typed_lines rest)))
    /\ snd (fst run) = Some (remove_client c_end clientSocket)
    /\ snd run = Exited.
Proof.
  intros net net' s stdin name rest clientSocket c0 later c_end
         Hnet Hname Hstop HNUL Hcmp Hlen Hlines Hlater run.
  pose proof (sendMesg_spec net s stdin Hnet) as Hs.
  unfold run, as_script. clear run.
  destruct (sendMesg net s stdin) as [tr st]. rewrite Hname in Hs.
  destruct Hs as (Hs & _). cbn [fst]. rewrite Hs. clear Hs.
  set (msgs := map (says name) (typed_lines rest)).
  assert (Hplain : Forall plain msgs).
  { apply Forall_map. eapply Forall_impl; [|exact Hlines].
    intros m [Hm Hl]. apply plain_says; assumption. }
  assert (Hl : length later = length msgs)
    by (unfold msgs; rewrite length_map; exact Hlater).
  change (combine (c0 :: later ++ [c_end])
                  (map Data ((connectPrefix ++ name) :: msgs) ++ [Eof]))
    with ((c0, Data (connectPrefix ++ name))
            :: combine (later ++ [c_end]) (map Data msgs ++ [Eof])).
  rewrite (combine_reads later msgs c_end Hl).
  rewrite (HandleClient_shared_session net' clientSocket name c0
             (combine later msgs) c_end HNUL Hlen
             (Forall_combine_snd plain later msgs Hplain)).
  cbn [fst snd sends]. split; [|split; reflexivity].
  rewrite sends_app, sends_broadcast, sends_app, sends_chat_turns.
  cbn [sends]. rewrite app_nil_r. reflexivity.
Qed.

Lemma chat_session_end_to_end_witness :
  sends (fst (fst (HandleClient_shared quiet 5
                     (combine ([5] :: [[5; 7]; [5; 7; 8]] ++ [[5; 8]])
                        (as_script 9
                           (fst (sendMesg quiet 9
                                   [lit "Al"; lit "hi"; lit "quit"])))))))
  = fanout [5] 5 (lit "Al" ++ lit " connected.")
      ++ flat_map (fun cm => fanout (fst cm) 5 (snd cm))
                  (combine [[5; 7]; [5; 7; 8]]
                           (map (says (lit "Al"))
                                (typed_lines [lit "hi"; lit "quit"]))).
Proof.
  assert (HN : ~ In NUL (lit "Al")) by (unfold NUL; not_in_literal).
  assert (Hlen : (length (connectPrefix ++ lit "Al") <= max_payload)%nat)
    by (apply Nat.leb_le; vm_compute; reflexivity).
  assert (Hl : Forall (fun m => ~ In NUL m
                                /\ (length (says (lit "Al") m)
                                    <= max_payload)%nat)
                      (typed_lines [lit "hi"; lit "quit"])).
  { change (typed_lines [lit "hi"; lit "quit"]) with [lit "hi"; lit "quit"].
    constructor; [|constructor; [|constructor]];
      (split; [unfold NUL; not_in_literal
              | apply Nat.leb_le; vm_compute; reflexivity]). }
  exact (proj1 (chat_session_end_to_end quiet quiet 9
                  [lit "Al"; lit "hi"; lit "quit"] (lit "Al")
                  [lit "hi"; lit "quit"] 5 [5] [[5; 7]; [5; 7; 8]] [5; 8]
                  (quiet_never_fails 9) eq_refl eq_refl HN eq_refl Hlen Hl
                  eq_refl)).
Defined.

(** ** The two handlers agree *)

Lemma recv_loop_shared_found net clientSocket clients script :
  forall buffer clientName,
    snd (fst (recv_loop_shared net clientSocket buffer clientName
                               (undisturbed clients script))) = Exited ->
    snd (recv_loop_shared net clientSocket buffer clientName
                          (undisturbed clients script)) = clients.
Proof.
  induction script as [|o script IH]; intros buffer clientName;
    [discriminate|].
  cbn [undisturbed map recv_loop_shared].
  destruct (recv o buffer (sizeof_buffer - 1)) as [n b].
  destruct (n <=? 0); [reflexivity|].
  destruct (store b n NUL) as [b'|]; [|reflexivity].
  destruct (handle_message _ _ _ _ _) as [n' evs].
  specialize (IH b' n'). fold (undisturbed clients script).
  destruct (recv_loop_shared net clientSocket b' n'
              (undisturbed clients script)) as [[evs1 st1] found].
  exact IH.
Qed.

(** The handler of the claims is the handler beside the other threads when
    those leave the registry alone. *)
Lemma HandleClient_shared_undisturbed net clientSocket clients script :
  HandleClient net clientSocket clients script
  = (fst (fst (HandleClient_shared net clientSocket
                                   (undisturbed clients script))),
     match snd (fst (HandleClient_shared net clientSocket
                                         (undisturbed clients script))) with
     | Some registry => registry
     | None => clients
     end,
     snd (HandleClient_shared net clientSocket (undisturbed clients script))).
Proof.
  unfold HandleClient, HandleClient_shared.
  pose proof (recv_loop_shared_undisturbed net clientSocket clients script
                zero_buffer (lit "Unknown")) as H1.
  pose proof (recv_loop_shared_found net clientSocket clients script
                zero_buffer (lit "Unknown")) as H2.
  destruct (recv_loop_shared _ _ _ _ _) as [[evs st] found].
  cbn [fst snd] in *. rewrite <- H1.
  destruct st; try reflexivity. rewrite (H2 eq_refl). reflexivity.
Qed.
